(** * cowel table generators: a shallow embedding and its properties

    This development embeds the two table generators of [src/util]:

    - [generate-case-transform-cpp.py], which turns the records of
      [UnicodeData.txt] / [SpecialCasing.txt] into C++ brace literals;
    - [generate-html-entities-cpp.py], which turns the JSON document of named
      character references into a sorted table of C++ brace literals.

    A Python [str] is modelled by [string]; the character [c : ascii] stands
    for the code point of the same number (U+0000 to U+00FF), which covers
    every character of the two data files.  A Python [int] is a [Z].  Output
    and termination are explicit: a run yields the list of its events, in
    order, and the way it ended. *)

From Stdlib Require Import ZArith NArith List String Ascii Bool Lia.
From Stdlib Require Import Permutation Sorted DecimalString.
Import ListNotations.

Open Scope string_scope.
Open Scope Z_scope.

(** ** Python built-ins used by the generators *)

Module Py.

(** The double quote and the line feed, which cannot be written inside a
    string literal of this file. *)
Definition dquote : string := String "034"%char EmptyString.
Definition newline : ascii := "010"%char.
Definition nl : string := String newline EmptyString.

(** [str(n)] for a length: the decimal numeral of a natural number. *)
Definition str_of_nat (n : nat) : string :=
  NilEmpty.string_of_uint (Nat.to_uint n).

(** [sep.join(parts)]. *)
Fixpoint join (sep : string) (parts : list string) : string :=
  match parts with
  | [] => EmptyString
  | [p] => p
  | p :: rest => p ++ sep ++ join sep rest
  end.

(** [s.startswith(p)]. *)
Definition startswith (s p : string) : bool := String.prefix p s.

(** [bool(s)] of a string: true when it is not empty. *)
Definition truthy (s : string) : bool :=
  match s with EmptyString => false | String _ _ => true end.

(** *** Stripping *)

Fixpoint lstrip_by (p : ascii -> bool) (s : string) : string :=
  match s with
  | EmptyString => EmptyString
  | String c s' => if p c then lstrip_by p s' else s
  end.

Fixpoint rstrip_by (p : ascii -> bool) (s : string) : string :=
  match s with
  | EmptyString => EmptyString
  | String c s' =>
      match rstrip_by p s' with
      | EmptyString => if p c then EmptyString else String c EmptyString
      | r => String c r
      end
  end.

(** [str.isspace] on U+0000..U+00FF: TAB, LF, VT, FF, CR, FS, GS, RS, US,
    SPACE, NEL (U+0085) and NO-BREAK SPACE (U+00A0). *)
Definition isspace (c : ascii) : bool :=
  let n := N_of_ascii c in
  ((9 <=? n) && (n <=? 13) || (28 <=? n) && (n <=? 32)
   || (n =? 133) || (n =? 160))%N.

(** [s.strip()] and [s.rstrip(chars)] for a one-character [chars]. *)
Definition strip (s : string) : string :=
  rstrip_by isspace (lstrip_by isspace s).

Definition rstrip_char (ch : ascii) (s : string) : string :=
  rstrip_by (Ascii.eqb ch) s.

(** *** Splitting on a one-character separator: [s.split(sep)] *)

Fixpoint split (sep : ascii) (s : string) : list string :=
  match s with
  | EmptyString => [EmptyString]
  | String c s' =>
      if Ascii.eqb c sep then EmptyString :: split sep s'
      else match split sep s' with
           | f :: fs => String c f :: fs
           | [] => [String c EmptyString]
           end
  end.

(** *** Slicing: [s[i:j]] with Python's clamping of negative and
    out-of-range bounds *)

Definition slice_bound (i n : Z) : Z :=
  if i <? 0 then Z.max 0 (i + n) else Z.min i n.

Definition slice (i j : Z) (s : string) : string :=
  let n := Z.of_nat (String.length s) in
  let a := slice_bound i n in
  let b := slice_bound j n in
  String.substring (Z.to_nat a) (Z.to_nat (b - a)) s.

(** *** Hexadecimal output: [format(v, "0wX")] *)

Definition hex_digit (d : N) : ascii :=
  match d with
  | 0 => "0" | 1 => "1" | 2 => "2" | 3 => "3" | 4 => "4" | 5 => "5"
  | 6 => "6" | 7 => "7" | 8 => "8" | 9 => "9" | 10 => "A" | 11 => "B"
  | 12 => "C" | 13 => "D" | 14 => "E" | _ => "F"
  end%N%char.

(** Digits are produced from the least significant one; [fuel] bounds the
    number of digits. *)
Fixpoint hex_digits (fuel : nat) (n : N) (acc : string) : string :=
  let acc' := String (hex_digit (n mod 16)) acc in
  match fuel with
  | O => acc'
  | S fuel' => if (n <? 16)%N then acc' else hex_digits fuel' (n / 16) acc'
  end.

(** [format(n, "X")] for [n >= 0]: a number below [2^(k+1)] has at most
    [k+1] hexadecimal digits. *)
Definition hex_upper (n : N) : string :=
  hex_digits (N.to_nat (N.log2 n)) n EmptyString.

Fixpoint zeros (k : nat) : string :=
  match k with O => EmptyString | S k' => String "0" (zeros k') end.

(** [format(v, "0wX")]: sign first, then zeros up to the minimum width [w]
    (the sign counts in the width), then the digits of [|v|]. *)
Definition format_0X (w : nat) (v : Z) : string :=
  let digits := hex_upper (Z.abs_N v) in
  let sign := if v <? 0 then "-" else EmptyString in
  sign ++ zeros (w - String.length sign - String.length digits) ++ digits.

(** *** Hexadecimal input: [int(s, 16)] *)

(** What [int] skips around the numeral: the ASCII spaces TAB, LF, VT, FF,
    CR, SPACE, and the non-ASCII spaces U+0085 and U+00A0. *)
Definition int_space (c : ascii) : bool :=
  let n := N_of_ascii c in
  ((9 <=? n) && (n <=? 13) || (n =? 32) || (n =? 133) || (n =? 160))%N.

Definition hex_value (c : ascii) : option N :=
  let n := N_of_ascii c in
  if ((48 <=? n) && (n <=? 57))%N then Some (n - 48)%N
  else if ((65 <=? n) && (n <=? 70))%N then Some (n - 55)%N
  else if ((97 <=? n) && (n <=? 102))%N then Some (n - 87)%N
  else None.

(** The digit scan: digits and single underscores between them; it stops at
    the first other character and fails on a doubled or trailing
    underscore. *)
Fixpoint scan_hex (s : string) (prev_underscore : bool) (acc : N)
  : option (N * string) :=
  match s with
  | EmptyString => if prev_underscore then None else Some (acc, s)
  | String c s' =>
      if Ascii.eqb c "_" then
        if prev_underscore then None else scan_hex s' true acc
      else
        match hex_value c with
        | Some d => scan_hex s' false (16 * acc + d)%N
        | None => if prev_underscore then None else Some (acc, s)
        end
  end.

Definition int_sign (s : string) : bool * string :=
  match s with
  | String "+" s' => (false, s')
  | String "-" s' => (true, s')
  | _ => (false, s)
  end.

Definition int_prefix (s : string) : string :=
  match s with
  | String "0" (String x s') =>
      if Ascii.eqb x "x" || Ascii.eqb x "X" then
        match s' with
        | String "_" s'' => s''
        | _ => s'
        end
      else s
  | _ => s
  end.

(** [int(s, 16)]; [None] stands for [ValueError]. *)
Definition int16 (s : string) : option Z :=
  let (negative, s1) := int_sign (lstrip_by int_space s) in
  let s2 := int_prefix s1 in
  match s2 with
  | String "_" _ => None
  | _ =>
      match scan_hex s2 false 0%N with
      | None => None
      | Some (v, rest) =>
          if (String.length rest =? String.length s2)%nat then None
          else
            match lstrip_by int_space rest with
            | EmptyString =>
                Some (if negative then - Z.of_N v else Z.of_N v)
            | String _ _ => None
            end
      end
  end.

(** A list comprehension [[int(c, 16) for c in parts]]: the first failure
    raises. *)
Fixpoint int16_all (parts : list string) : option (list Z) :=
  match parts with
  | [] => Some []
  | p :: rest =>
      match int16 p with
      | None => None
      | Some v =>
          match int16_all rest with
          | None => None
          | Some vs => Some (v :: vs)
          end
      end
  end.

(** *** Events of a run *)

Inductive event : Type :=
| Opened (path : string)     (* open(path) was called *)
| Out (text : string)        (* print(text): text and a line feed on stdout *)
| Err (text : string).       (* print(text, file=sys.stderr) *)

Inductive ending : Type :=
| Finished                   (* the script ran to its end *)
| Exited (code : Z)          (* sys.exit(code) *)
| Raised (exn : string).     (* an uncaught exception *)

Definition exit_status (e : ending) : Z :=
  match e with
  | Finished => 0
  | Exited code => code
  | Raised _ => 1
  end.

(** The lines printed on stdout, and the bytes written there. *)
Fixpoint out_lines (t : list event) : list string :=
  match t with
  | [] => []
  | Out s :: t' => s :: out_lines t'
  | _ :: t' => out_lines t'
  end.

Fixpoint stdout (t : list event) : string :=
  match t with
  | [] => EmptyString
  | Out s :: t' => s ++ nl ++ stdout t'
  | _ :: t' => stdout t'
  end.

Definition opens (t : list event) : bool :=
  existsb (fun e => match e with Opened _ => true | _ => false end) t.

End Py.

Import Py.

(** ** generate-case-transform-cpp.py *)

Module CaseTransform.

Definition transformations : list string :=
  ["simple_lower"; "simple_upper"; "special_lower"; "special_upper"].

Definition to_char_escape (code_point : Z) : string :=
  if code_point >? 65535 then "\U" ++ format_0X 8 code_point
  else "\u" ++ format_0X 4 code_point.

Definition to_char_literal (code_point : Z) : string :=
  "U'" ++ to_char_escape code_point ++ "'".

Definition format_code_points (code_points : list Z) : string :=
  join "," (map to_char_literal code_points).

Definition print_simple (code_point transformed : Z) : event :=
  Out ("{" ++ format_code_points [code_point; transformed] ++ "},").

Definition print_special (code_point : Z) (transformed : list Z) : event :=
  let key := to_char_literal code_point in
  let value :=
    "U" ++ dquote ++ join EmptyString (map to_char_escape transformed)
        ++ dquote in
  Out ("{" ++ key ++ "," ++ value ++ "},").

(** What one iteration of the loop over the lines does: fall through to
    the next line (after printing [out]), leave the loop by [break], or end
    the run by [sys.exit] or an uncaught exception. *)
Inductive step : Type :=
| Continue (out : list event)
| BreakLoop
| Halt (out : list event) (e : ending).

(** [fields[i]]: an index out of range raises [IndexError]. *)
Definition index (fields : list string) (i : nat) (k : string -> step)
  : step :=
  match nth_error fields i with
  | Some f => k f
  | None => Halt [] (Raised "IndexError")
  end.

(** [int(s, 16)]: a malformed numeral raises [ValueError]. *)
Definition parse_hex (s : string) (k : Z -> step) : step :=
  match int16 s with
  | Some v => k v
  | None => Halt [] (Raised "ValueError")
  end.

Definition parse_hex_all (parts : list string) (k : list Z -> step) : step :=
  match int16_all parts with
  | Some vs => k vs
  | None => Halt [] (Raised "ValueError")
  end.

Notation "'let*' x ':=' m 'in' k" := (m (fun x => k))
  (at level 10, x name, m at level 100, k at level 200).

Definition columns_message (expected_columns actual : nat) : string :=
  "Expected at least " ++ str_of_nat expected_columns
    ++ " columns, but got " ++ str_of_nat actual.

(** The [match transformation] statement on the fields of a record whose
    code point has been read.  In [a and b] the column of [b] is read only
    when [a] holds. *)
Definition dispatch (transformation : string) (fields : list string)
  (code_point : Z) : step :=
  if (transformation =? "simple_upper")%string then
    let* general_category := index fields 2 in
    if (general_category =? "Ll")%string then
      let* upper := index fields 12 in
      if truthy upper then
        let* transformed := parse_hex upper in
        Continue [print_simple code_point transformed]
      else Continue []
    else Continue []
  else if (transformation =? "simple_lower")%string then
    let* general_category := index fields 2 in
    if (general_category =? "Lu")%string then
      let* lower := index fields 13 in
      if truthy lower then
        let* transformed := parse_hex lower in
        Continue [print_simple code_point transformed]
      else Continue []
    else Continue []
  else if (transformation =? "special_upper")%string then
    let* column := index fields 3 in
    let* transformed := parse_hex_all (split " " (strip column)) in
    if (2 <=? List.length transformed)%nat then
      Continue [print_special code_point transformed]
    else Continue []
  else if (transformation =? "special_lower")%string then
    let* column := index fields 1 in
    let* transformed := parse_hex_all (split " " (strip column)) in
    if (2 <=? List.length transformed)%nat then
      Continue [print_special code_point transformed]
    else Continue []
  else Halt [] (Exited 1).

(** The body of [for line in f]. *)
Definition body (transformation : string) (expected_columns : nat)
  (line : string) : step :=
  let line := rstrip_char newline line in
  if negb (truthy line) || startswith line "#" then Continue []
  else
    let fields := split ";" line in
    if (List.length fields <? expected_columns)%nat then
      Halt [Err (columns_message expected_columns (List.length fields))]
           (Exited 1)
    else if startswith transformation "special" && (6 <=? List.length fields)%nat
    then BreakLoop
    else
      let* first := index fields 0 in
      let* code_point := parse_hex first in
      dispatch transformation fields code_point.

(** How the loop over the lines ended. *)
Inductive loop_end : Type :=
| Exhausted                  (* every line was visited *)
| Broke                      (* left by [break] *)
| Halted (e : ending).       (* the run ended inside the loop *)

Fixpoint loop (transformation : string) (expected_columns : nat)
  (lines : list string) : list event * loop_end :=
  match lines with
  | [] => ([], Exhausted)
  | line :: rest =>
      match body transformation expected_columns line with
      | Continue out =>
          let (t, e) := loop transformation expected_columns rest in
          ((out ++ t)%list, e)
      | BreakLoop => ([], Broke)
      | Halt out e => (out, Halted e)
      end
  end.

Definition after_loop (e : loop_end) : ending :=
  match e with
  | Exhausted | Broke => Finished
  | Halted e' => e'
  end.

Definition usage_message (prog : string) : string :=
  "Usage: " ++ prog ++ " <Data.txt> (" ++ join "|" transformations ++ ")".

Definition invalid_message (transformation : string) : string :=
  "Invalid transformation " ++ dquote ++ transformation ++ dquote.

(** [main()], for the command line [argv] and a file system [fs] that gives
    the lines a text file yields when iterated (each with its line feed),
    or [None] when it cannot be opened. *)
Definition main (fs : string -> option (list string)) (argv : list string)
  : list event * ending :=
  match argv with
  | [_; path; transformation] =>
      if negb (existsb (String.eqb transformation) transformations) then
        ([Err (invalid_message transformation)], Exited 1)
      else
        let expected_columns :=
          if startswith transformation "simple" then 15%nat else 5%nat in
        match fs path with
        | None => ([Opened path], Raised "OSError")
        | Some lines =>
            let (t, e) := loop transformation expected_columns lines in
            (Opened path :: t, after_loop e)
        end
  | [] => ([], Raised "IndexError")
  | prog :: _ => ([Err (usage_message prog)], Exited 1)
  end.

End CaseTransform.

(** ** generate-html-entities-cpp.py *)

Module HtmlEntities.

(** A definition of the JSON document; only its ["codepoints"] member is
    read. *)
Record entry : Type := { codepoints : list Z }.

(** The loaded document, in the iteration order of [data.items()]. *)
Definition document : Type := list (string * entry).

Definition format_code_point (code_point : Z) : string :=
  if code_point >? 65535 then "U'\U" ++ format_0X 8 code_point ++ "'"
  else "U'\u" ++ format_0X 4 code_point ++ "'".

Definition format_code_points (code_points : list Z) : string :=
  let formatted_code_points :=
    fold_left (fun acc code_point => (acc ++ [format_code_point code_point])%list)
              code_points [] in
  join "," formatted_code_points.

(** The line appended to [output] for one item of the document. *)
Definition entry_line (name : string) (e : entry) : string :=
  let name_cropped := slice 1 (-1) name in
  let code_points_formatted := format_code_points (codepoints e) in
  "{u8" ++ dquote ++ name_cropped ++ dquote ++ ","
    ++ str_of_nat (String.length name_cropped)
    ++ ",{" ++ code_points_formatted ++ "}},".

(** [output.sort()]: the order of [str] is the lexicographic order of the
    code points, so the sorted list is determined by its elements; it is
    computed here by insertion, which like Python's sort is stable. *)
Fixpoint insert (s : string) (sorted : list string) : list string :=
  match sorted with
  | [] => [s]
  | x :: rest => if String.ltb s x then s :: sorted else x :: insert s rest
  end.

Definition sort (l : list string) : list string :=
  fold_right insert [] (rev l).

Definition main (data : document) : list event :=
  let output :=
    fold_left (fun output item =>
                 (output ++ [entry_line (fst item) (snd item)])%list)
              data [] in
  let output := sort output in
  [ Out "// NOLINTBEGIN";
    Out "// clang-format off";
    Out (join nl output);
    Out "// clang-format on";
    Out "// NOLINTEND" ].

End HtmlEntities.

(** ** file-to-array.py *)

Module FileToArray.

(** [format(v, "0wx")]: the digits of the [X] presentation in lower case. *)
Definition to_lower (c : ascii) : ascii :=
  let n := N_of_ascii c in
  if ((65 <=? n) && (n <=? 90))%N then ascii_of_N (n + 32) else c.

Fixpoint lower_string (s : string) : string :=
  match s with
  | EmptyString => EmptyString
  | String c s' => String (to_lower c) (lower_string s')
  end.

Definition format_0x (w : nat) (v : Z) : string :=
  lower_string (format_0X w v).

(** The loop [for i, b in enumerate(data)], from index [i] on: what it
    writes, in order. *)
Fixpoint write_bytes (i : nat) (data : list Byte.byte) : string :=
  match data with
  | [] => EmptyString
  | b :: rest =>
      ("0x" ++ format_0x 2 (Z.of_N (Byte.to_N b)) ++ ", ")
        ++ (if ((i + 1) mod 16 =? 0)%nat then nl ++ "    " else EmptyString)
        ++ write_bytes (S i) rest
  end.

(** The text [emit_cpp_array] writes to the output file for the bytes
    [data] of the input file. *)
Definition emit_cpp_array (data : list Byte.byte) (var_name : string)
  : string :=
  ("#include <cstddef>" ++ nl)
    ++ ("#include <string_view>" ++ nl ++ nl)
    ++ ("#include " ++ dquote ++ "cowel/assets.hpp" ++ dquote ++ nl ++ nl)
    ++ ("namespace cowel::assets {" ++ nl)
    ++ ("namespace {" ++ nl)
    ++ ("constexpr char8_t " ++ var_name ++ "_data[] = {" ++ nl ++ "    ")
    ++ write_bytes 0 data
    ++ (nl ++ "};" ++ nl)
    ++ ("constexpr std::size_t " ++ var_name ++ "_size = sizeof("
          ++ var_name ++ "_data);" ++ nl)
    ++ ("}" ++ nl)
    ++ ("constinit const std::u8string_view " ++ var_name ++ " { "
          ++ var_name ++ "_data, " ++ var_name ++ "_size };" ++ nl)
    ++ ("}" ++ nl).

End FileToArray.

(** ** Vocabulary of the properties *)

Section Vocabulary.

Import CaseTransform HtmlEntities.

(** Every character of [s] satisfies [p]. *)
Fixpoint all_chars (p : ascii -> bool) (s : string) : bool :=
  match s with
  | EmptyString => true
  | String c s' => p c && all_chars p s'
  end.

(** An uppercase hexadecimal digit: [0-9A-F]. *)
Definition upper_hex (c : ascii) : bool :=
  let n := N_of_ascii c in
  ((48 <=? n) && (n <=? 57) || (65 <=? n) && (n <=? 70))%N.

(** The number a string of hexadecimal digits denotes, read after [acc]. *)
Fixpoint hex_read (acc : N) (s : string) : option N :=
  match s with
  | EmptyString => Some acc
  | String c s' =>
      match hex_value c with
      | Some d => hex_read (16 * acc + d) s'
      | None => None
      end
  end.

(** [s] is [marker] followed by exactly [digits] uppercase hexadecimal
    digits that denote [cp]. *)
Definition escape_form (marker : string) (digits : nat) (cp : Z)
  (s : string) : Prop :=
  exists ds,
    s = marker ++ ds
    /\ String.length ds = digits
    /\ all_chars upper_hex ds = true
    /\ hex_read 0 ds = Some (Z.to_N cp).

(** [s <= t] for Python strings: the lexicographic order of the code
    points. *)
Definition str_le (s t : string) : Prop := String.leb s t = true.

(** The lines the loop over [data.items()] collects, and the five prints
    around the sorted lines. *)
Definition entry_lines (data : document) : list string :=
  map (fun item => entry_line (fst item) (snd item)) data.

Definition framed (lines : list string) : list event :=
  [ Out "// NOLINTBEGIN"; Out "// clang-format off"; Out (join nl lines);
    Out "// clang-format on"; Out "// NOLINTEND" ].

(** The minimum number of columns [main] asks for. *)
Definition expected_columns (transformation : string) : nat :=
  if startswith transformation "simple" then 15%nat else 5%nat.

(** A line that is a record: not blank and not a comment once its line
    feed is removed; [record_fields] are its columns. *)
Definition is_record (line : string) : bool :=
  let line := rstrip_char newline line in
  truthy line && negb (startswith line "#").

Definition record_fields (line : string) : list string :=
  split ";" (rstrip_char newline line).

(** The text [s] is printed on stdout by this step. *)
Definition emits (s : step) (text : string) : Prop :=
  match s with
  | Continue out | Halt out _ => In (Out text) out
  | BreakLoop => False
  end.

(** A text without a line feed: printed, it is one line of the output. *)
Definition one_line (s : string) : bool :=
  all_chars (fun c => negb (Ascii.eqb c newline)) s.

(** What a step that goes on to the next line has printed: nothing, one
    simple mapping or one special mapping. *)
Definition one_entry (out : list event) : Prop :=
  out = []
  \/ (exists cp t, out = [print_simple cp t])
  \/ (exists cp ts, out = [print_special cp ts]).

End Vocabulary.

(** ** Sample inputs *)

(** The record of LATIN CAPITAL LETTER A in UnicodeData.txt and the record
    of LATIN SMALL LETTER SHARP S in SpecialCasing.txt. *)
Definition record_0041 : string :=
  "0041;LATIN CAPITAL LETTER A;Lu;0;L;;;;;N;;;;0061;" ++ nl.

Definition record_00DF : string :=
  "00DF; 00DF; 0053 0073; 0053 0053; # LATIN SMALL LETTER SHARP S" ++ nl.

Definition record_03A3 : string :=
  "03A3; 03C2; 03A3; 03A3; Final_Sigma; # GREEK CAPITAL LETTER SIGMA" ++ nl.

Definition one_file (lines : list string) (path : string)
  : option (list string) := Some lines.

Definition amp_lt : HtmlEntities.document :=
  [ ("&amp;", {| HtmlEntities.codepoints := [38] |});
    ("&lt;", {| HtmlEntities.codepoints := [60] |}) ].

Definition lt_amp : HtmlEntities.document :=
  [ ("&lt;", {| HtmlEntities.codepoints := [60] |});
    ("&amp;", {| HtmlEntities.codepoints := [38] |}) ].

Definition amp : HtmlEntities.document :=
  [ ("&amp;", {| HtmlEntities.codepoints := [38] |}) ].

(** A record of 15 columns of category [Ll] whose column 12 is one space,
    and a record of 15 columns of category [Lu] whose code point column is
    not a numeral. *)
Definition record_blank_upper : string :=
  "0061;LATIN SMALL LETTER A;Ll;0;L;;;;;N;;; ;;0041" ++ nl.

Definition record_bad_code_point : string :=
  "zz;LATIN CAPITAL LETTER A;Lu;0;L;;;;;N;;;;0061;" ++ nl.

(** ** Vocabulary of the further properties *)

Section MoreVocabulary.

Import CaseTransform.

(** The lines printed on stderr. *)
Fixpoint err_lines (t : list event) : list string :=
  match t with
  | [] => []
  | Err s :: t' => s :: err_lines t'
  | _ :: t' => err_lines t'
  end.

(** What one line contributes to stdout when the loop goes on after it. *)
Definition line_out (transformation : string) (n : nat) (line : string)
  : list string :=
  match body transformation n line with
  | Continue out => out_lines out
  | _ => []
  end.

(** The number of lines the loop goes past: the lines at the front whose
    step goes on to the next line. *)
Fixpoint lines_passed (transformation : string) (n : nat)
  (lines : list string) : nat :=
  match lines with
  | [] => 0%nat
  | line :: rest =>
      match body transformation n line with
      | Continue _ => S (lines_passed transformation n rest)
      | _ => 0%nat
      end
  end.

(** A lowercase hexadecimal digit: [0-9a-f]. *)
Definition lower_hex (c : ascii) : bool :=
  let n := N_of_ascii c in
  ((48 <=? n) && (n <=? 57) || (97 <=? n) && (n <=? 102))%N.

(** The number of line feeds of a text. *)
Fixpoint count_nl (s : string) : nat :=
  match s with
  | EmptyString => 0%nat
  | String c s' => ((if Ascii.eqb c newline then 1 else 0) + count_nl s')%nat
  end.

(** The text written for one byte of the array. *)
Definition byte_entry (b : Byte.byte) : string :=
  "0x" ++ FileToArray.format_0x 2 (Z.of_N (Byte.to_N b)) ++ ", ".

End MoreVocabulary.

(** * Properties *)

(** ** The built-ins on sample values *)

Example int16_examples :
  map int16 ["0041"; " 41 "; "-41"; "0x41"; "0x_41"; "4_1"; "0b1"; "+0x41"]
  = [Some 65; Some 65; Some (-65); Some 65; Some 65; Some 65; Some 177; Some 65]
  /\ map int16 [EmptyString; "_41"; "4__1"; "41_"; "0x"; "1 2"; "- 41"; "zz"]
     = [None; None; None; None; None; None; None; None].
Proof. split; reflexivity. Qed.

Example format_examples :
  map (format_0X 8) [65; 128512; 4294967296; -1]
  = ["00000041"; "0001F600"; "100000000"; "-0000001"]
  /\ map (format_0X 4) [65; 65535; 65536; -1] = ["0041"; "FFFF"; "10000"; "-001"].
Proof. split; reflexivity. Qed.

Example split_strip_examples :
  split " " (strip " a b ") = ["a"; "b"]
  /\ split " " (strip EmptyString) = [EmptyString]
  /\ split " " "a  b" = ["a"; EmptyString; "b"]
  /\ split ";" ";" = [EmptyString; EmptyString]
  /\ map (slice 1 (-1)) ["abc"; "ab"; "a"; EmptyString]
     = ["b"; EmptyString; EmptyString; EmptyString].
Proof. repeat split; reflexivity. Qed.

Example sort_example :
  HtmlEntities.sort ["b"; "a"; "B"; EmptyString; "aa"; "a"]
  = [EmptyString; "B"; "a"; "a"; "aa"; "b"].
Proof. reflexivity. Qed.

(** ** Strings *)

Section StringFacts.

Lemma append_empty_r (s : string) : s ++ EmptyString = s.
Proof. induction s as [|c s IH]; simpl; [reflexivity | now rewrite IH]. Qed.

Lemma append_assoc (s t u : string) : (s ++ t) ++ u = s ++ (t ++ u).
Proof. induction s as [|c s IH]; simpl; [reflexivity | now rewrite IH]. Qed.

Lemma length_append (s t : string) :
  String.length (s ++ t) = (String.length s + String.length t)%nat.
Proof. induction s as [|c s IH]; simpl; [reflexivity | now rewrite IH]. Qed.

Lemma all_chars_append p (s t : string) :
  all_chars p (s ++ t) = all_chars p s && all_chars p t.
Proof.
  induction s as [|c s IH]; simpl; [reflexivity|].
  now rewrite IH, andb_assoc.
Qed.

Lemma length_zeros k : String.length (zeros k) = k.
Proof. induction k; simpl; congruence. Qed.

End StringFacts.

(** ** Hexadecimal digits *)

Section HexFacts.

Lemma hex_digit_spec (d : N) :
  (d < 16)%N -> hex_value (hex_digit d) = Some d /\ upper_hex (hex_digit d) = true.
Proof.
  intros H.
  assert (E : (d = 0 \/ d = 1 \/ d = 2 \/ d = 3 \/ d = 4 \/ d = 5 \/ d = 6
               \/ d = 7 \/ d = 8 \/ d = 9 \/ d = 10 \/ d = 11 \/ d = 12
               \/ d = 13 \/ d = 14 \/ d = 15)%N) by lia.
  repeat (destruct E as [E|E]; [subst d; split; reflexivity|]).
  subst d; split; reflexivity.
Qed.

Lemma hex_read_append (s t : string) : forall acc,
  hex_read acc (s ++ t)
  = match hex_read acc s with Some v => hex_read v t | None => None end.
Proof.
  induction s as [|c s IH]; intros acc; simpl; [reflexivity|].
  destruct (hex_value c); [apply IH | reflexivity].
Qed.

(** What [hex_digits] puts in front of its accumulator. *)
Lemma hex_digits_spec (fuel : nat) : forall (n : N) (acc : string),
  (n < 16 ^ N.of_nat (S fuel))%N ->
  exists ds,
    hex_digits fuel n acc = ds ++ acc
    /\ (1 <= String.length ds)%nat
    /\ all_chars upper_hex ds = true
    /\ (forall a, hex_read a ds
                  = Some (a * 16 ^ N.of_nat (String.length ds) + n)%N)
    /\ (forall k, (1 <= k)%nat -> (n < 16 ^ N.of_nat k)%N ->
                  (String.length ds <= k)%nat).
Proof.
  assert (one : forall n acc, (n < 16)%N ->
    exists ds,
      String (hex_digit (n mod 16)) acc = ds ++ acc
      /\ (1 <= String.length ds)%nat
      /\ all_chars upper_hex ds = true
      /\ (forall a, hex_read a ds
                    = Some (a * 16 ^ N.of_nat (String.length ds) + n)%N)
      /\ (forall k, (1 <= k)%nat -> (n < 16 ^ N.of_nat k)%N ->
                    (String.length ds <= k)%nat)).
  { intros n acc Hn.
    exists (String (hex_digit n) EmptyString).
    rewrite N.mod_small by assumption.
    destruct (hex_digit_spec n Hn) as [Hv Hu].
    repeat split.
    - simpl. lia.
    - simpl. now rewrite Hu.
    - intros a. cbn [hex_read String.length]. rewrite Hv.
      change (16 ^ N.of_nat 1)%N with 16%N. f_equal. lia.
    - intros k Hk _. exact Hk. }
  induction fuel as [|fuel IH]; intros n acc Hn.
  - simpl hex_digits. apply one. exact Hn.
  - simpl hex_digits. destruct (N.ltb_spec n 16) as [Hlt|Hge].
    + apply one. exact Hlt.
    + assert (Hdiv : (n / 16 < 16 ^ N.of_nat (S fuel))%N).
      { apply N.Div0.div_lt_upper_bound.
        replace (N.of_nat (S (S fuel))) with (N.succ (N.of_nat (S fuel))) in Hn
          by lia.
        rewrite N.pow_succ_r' in Hn. exact Hn. }
      destruct (hex_digit_spec (n mod 16)) as [Hv Hu];
        [apply N.mod_upper_bound; lia|].
      destruct (IH (n / 16)%N (String (hex_digit (n mod 16)) acc) Hdiv)
        as (ds & E & Hlen & Hall & Hval & Hk).
      exists (ds ++ String (hex_digit (n mod 16)) EmptyString).
      rewrite E, append_assoc. simpl.
      repeat split.
      * rewrite length_append. simpl. lia.
      * rewrite all_chars_append, Hall. simpl. now rewrite Hu.
      * intros a. rewrite hex_read_append, Hval. cbn [hex_read]. rewrite Hv.
        f_equal. rewrite length_append. simpl String.length.
        replace (N.of_nat (String.length ds + 1))
          with (N.succ (N.of_nat (String.length ds))) by lia.
        rewrite N.pow_succ_r'.
        pose proof (N.div_mod n 16 ltac:(lia)) as D.
        set (q := (n / 16)%N) in *. set (r := (n mod 16)%N) in *.
        generalize (16 ^ N.of_nat (String.length ds))%N as P. intro P. lia.
      * intros k Hk1 Hnk. rewrite length_append. simpl String.length.
        destruct k as [|[|k]]; [lia | simpl in Hnk; lia |].
        assert ((n / 16 < 16 ^ N.of_nat (S k))%N) as Hq.
        { apply N.Div0.div_lt_upper_bound.
          replace (N.of_nat (S (S k))) with (N.succ (N.of_nat (S k))) in Hnk
            by lia.
          rewrite N.pow_succ_r' in Hnk. exact Hnk. }
        specialize (Hk (S k) ltac:(lia) Hq). lia.
Qed.

Lemma hex_upper_fuel (n : N) : (n < 16 ^ N.of_nat (S (N.to_nat (N.log2 n))))%N.
Proof.
  destruct n as [|p]; [reflexivity|].
  assert (H := N.log2_spec (N.pos p) ltac:(lia)).
  rewrite Nnat.Nat2N.inj_succ, Nnat.N2Nat.id.
  destruct H as [_ H].
  eapply N.lt_le_trans; [exact H|].
  apply N.pow_le_mono_l. lia.
Qed.

(** The digits of [hex_upper n]: at least one, all in [0-9A-F], denoting
    [n], and no more than [k] of them when [n < 16^k]. *)
Lemma hex_upper_spec (n : N) :
  (1 <= String.length (hex_upper n))%nat
  /\ all_chars upper_hex (hex_upper n) = true
  /\ (forall a, hex_read a (hex_upper n)
                = Some (a * 16 ^ N.of_nat (String.length (hex_upper n)) + n)%N)
  /\ (forall k, (1 <= k)%nat -> (n < 16 ^ N.of_nat k)%N ->
                (String.length (hex_upper n) <= k)%nat).
Proof.
  unfold hex_upper.
  destruct (hex_digits_spec _ n EmptyString (hex_upper_fuel n))
    as (ds & E & H).
  rewrite E, append_empty_r. exact H.
Qed.

Lemma all_chars_zeros k : all_chars upper_hex (zeros k) = true.
Proof. induction k; simpl; [reflexivity | exact IHk]. Qed.

Lemma hex_read_zeros k : hex_read 0 (zeros k) = Some 0%N.
Proof. induction k; simpl; [reflexivity | exact IHk]. Qed.

(** [format(v, "0wX")] of a number [0 <= v < 16^w]: exactly [w] uppercase
    hexadecimal digits that denote [v]. *)
Lemma format_0X_spec (w : nat) (v : Z) :
  (1 <= w)%nat -> 0 <= v < 16 ^ Z.of_nat w ->
  String.length (format_0X w v) = w
  /\ all_chars upper_hex (format_0X w v) = true
  /\ hex_read 0 (format_0X w v) = Some (Z.to_N v).
Proof.
  intros Hw [H0 Hv]. unfold format_0X.
  destruct (Z.ltb_spec v 0) as [?|_]; [lia|].
  destruct (hex_upper_spec (Z.abs_N v)) as (H1 & Hall & Hval & Hk).
  assert (Hb : (Z.abs_N v < 16 ^ N.of_nat w)%N).
  { rewrite Zabs2N.abs_N_nonneg by assumption.
    apply N2Z.inj_lt. rewrite Z2N.id by assumption.
    rewrite N2Z.inj_pow, nat_N_Z. exact Hv. }
  specialize (Hk w Hw Hb).
  simpl String.length. simpl append.
  repeat split.
  - rewrite length_append, length_zeros. lia.
  - rewrite all_chars_append, all_chars_zeros, Hall. reflexivity.
  - rewrite hex_read_append, hex_read_zeros, Hval.
    rewrite Zabs2N.abs_N_nonneg by assumption. reflexivity.
Qed.

End HexFacts.

(** ** Escapes of code points *)

Section Escapes.

Import CaseTransform.

Lemma fold_left_append_map {A B} (f : A -> B) (l : list A) : forall init,
  fold_left (fun acc x => (acc ++ [f x])%list) l init = (init ++ map f l)%list.
Proof.
  induction l as [|x l IH]; intros init; simpl.
  - now rewrite app_nil_r.
  - rewrite IH, <- app_assoc. reflexivity.
Qed.

Lemma entity_literal_eq (cp : Z) :
  HtmlEntities.format_code_point cp = to_char_literal cp.
Proof.
  unfold HtmlEntities.format_code_point, to_char_literal, to_char_escape.
  destruct (cp >? 65535); reflexivity.
Qed.

Lemma entity_format_code_points_eq (cps : list Z) :
  HtmlEntities.format_code_points cps = format_code_points cps.
Proof.
  unfold HtmlEntities.format_code_points, format_code_points.
  rewrite fold_left_append_map. simpl app.
  f_equal. apply map_ext. exact entity_literal_eq.
Qed.

Lemma escape_short (cp : Z) :
  0 <= cp <= 65535 -> escape_form "\u" 4 cp (to_char_escape cp).
Proof.
  intros H. unfold to_char_escape.
  destruct (Z.gtb_spec cp 65535) as [?|_]; [lia|].
  destruct (format_0X_spec 4 cp) as (L & A & V); [lia | simpl; lia |].
  exists (format_0X 4 cp). auto.
Qed.

Lemma escape_long (cp : Z) :
  65535 < cp <= 4294967295 -> escape_form "\U" 8 cp (to_char_escape cp).
Proof.
  intros H. unfold to_char_escape.
  destruct (Z.gtb_spec cp 65535) as [_|?]; [|lia].
  destruct (format_0X_spec 8 cp) as (L & A & V); [lia | simpl; lia |].
  exists (format_0X 8 cp). auto.
Qed.

End Escapes.

(** C1.  Every code point is escaped by one rule in both generators.  For
    a code point [cp] (an integer from 0 to 0x10FFFF; the statement is
    proved up to 0xFFFFFFFF) the escape is [\u] and exactly 4 uppercase
    hexadecimal digits denoting [cp] when [cp <= 0xFFFF], and [\U] and
    exactly 8 such digits when [cp > 0xFFFF]; 0x41 gives [\u0041] and
    0x1F600 gives [\U0001F600]; the literal of the entity generator is the
    literal of the case-mapping generator, for single code points and for
    sequences, and the special-mapping string uses the same escape. *)
Theorem code_point_escape_rule (cp : Z) :
  0 <= cp <= 4294967295 ->
  (cp <= 65535 -> escape_form "\u" 4 cp (CaseTransform.to_char_escape cp))
  /\ (cp > 65535 -> escape_form "\U" 8 cp (CaseTransform.to_char_escape cp))
  /\ CaseTransform.to_char_escape 65 = "\u0041"
  /\ CaseTransform.to_char_escape 128512 = "\U0001F600"
  /\ HtmlEntities.format_code_point cp
     = "U'" ++ CaseTransform.to_char_escape cp ++ "'"
  /\ (forall cps, HtmlEntities.format_code_points cps
                  = CaseTransform.format_code_points cps)
  /\ (forall t, CaseTransform.print_simple cp t
                = Out ("{U'" ++ CaseTransform.to_char_escape cp ++ "',U'"
                         ++ CaseTransform.to_char_escape t ++ "'},"))
  /\ (forall ts, CaseTransform.print_special cp ts
                 = Out ("{U'" ++ CaseTransform.to_char_escape cp ++ "',U"
                          ++ dquote
                          ++ join EmptyString
                               (map CaseTransform.to_char_escape ts)
                          ++ dquote ++ "},")).
Proof.
  intros H. repeat split.
  - intros Hs. apply escape_short. lia.
  - intros Hl. apply escape_long. lia.
  - rewrite entity_literal_eq. reflexivity.
  - exact entity_format_code_points_eq.
  - intros t. unfold CaseTransform.print_simple,
      CaseTransform.format_code_points, CaseTransform.to_char_literal.
    simpl map. simpl join. f_equal.
    repeat (rewrite ?append_assoc; simpl append). reflexivity.
  - intros ts. unfold CaseTransform.print_special,
      CaseTransform.to_char_literal. f_equal.
    repeat (rewrite ?append_assoc; simpl append). reflexivity.
Qed.

Lemma code_point_escape_rule_witness :
  0 <= 128512 <= 4294967295
  /\ 128512 > 65535
  /\ escape_form "\U" 8 128512 (CaseTransform.to_char_escape 128512).
Proof.
  assert (H : 0 <= 128512 <= 4294967295) by lia.
  assert (G : 128512 > 65535) by lia.
  split; [exact H | split; [exact G|]].
  exact (proj1 (proj2 (code_point_escape_rule 128512 H)) G).
Defined.

(** Outside that range the width is only a minimum: a value above
    0xFFFFFFFF gets more than 8 digits and a negative value a sign. *)
Example escape_out_of_range :
  CaseTransform.to_char_escape 4294967296 = "\U100000000"
  /\ CaseTransform.to_char_escape (-1) = "\u-001".
Proof. split; reflexivity. Qed.

(** ** The order of strings and sorting *)

Section Sorting.

Import HtmlEntities.

Lemma str_le_refl (s : string) : str_le s s.
Proof.
  unfold str_le. destruct (String.leb_total s s); assumption.
Qed.

Lemma str_le_trans (s t u : string) : str_le s t -> str_le t u -> str_le s u.
Proof.
  unfold str_le, String.leb. revert t u.
  induction s as [|a s IH]; intros [|b t] [|c u]; simpl;
    try reflexivity; try discriminate.
  unfold Ascii.compare.
  destruct (N.compare_spec (N_of_ascii a) (N_of_ascii b));
    destruct (N.compare_spec (N_of_ascii b) (N_of_ascii c));
    destruct (N.compare_spec (N_of_ascii a) (N_of_ascii c));
    try discriminate; try reflexivity; try lia.
  apply IH.
Qed.

Lemma str_le_antisym (s t : string) : str_le s t -> str_le t s -> s = t.
Proof. apply String.leb_antisym. Qed.

Lemma ltb_false_le (s t : string) : String.ltb s t = false -> str_le t s.
Proof.
  unfold String.ltb, str_le, String.leb.
  rewrite (String.compare_antisym s t).
  destruct (String.compare t s); simpl; congruence.
Qed.

Lemma ltb_true_le (s t : string) : String.ltb s t = true -> str_le s t.
Proof.
  unfold String.ltb, str_le, String.leb.
  destruct (String.compare s t); congruence.
Qed.

Lemma insert_perm (s : string) (l : list string) :
  Permutation (insert s l) (s :: l).
Proof.
  induction l as [|x l IH]; simpl; [reflexivity|].
  destruct (String.ltb s x); [reflexivity|].
  rewrite IH. apply perm_swap.
Qed.

Lemma insert_sorted (s : string) (l : list string) :
  StronglySorted str_le l -> StronglySorted str_le (insert s l).
Proof.
  induction 1 as [|x l Hs IH Hx]; simpl.
  - constructor; constructor.
  - destruct (String.ltb s x) eqn:E.
    + constructor; [constructor; assumption|].
      constructor; [now apply ltb_true_le|].
      eapply Forall_impl; [|exact Hx].
      intros y Hy. eapply str_le_trans; [apply ltb_true_le, E | exact Hy].
    + constructor; [exact IH|].
      eapply Permutation_Forall; [symmetry; apply insert_perm|].
      constructor; [now apply ltb_false_le | exact Hx].
Qed.

Lemma sort_perm (l : list string) : Permutation (sort l) l.
Proof.
  unfold sort. rewrite (Permutation_rev l) at 2.
  induction (rev l) as [|x r IH]; simpl; [reflexivity|].
  rewrite insert_perm. now constructor.
Qed.

Lemma sort_sorted (l : list string) : StronglySorted str_le (sort l).
Proof.
  unfold sort. induction (rev l) as [|x r IH]; simpl.
  - constructor.
  - now apply insert_sorted.
Qed.

(** A list has one sorted arrangement. *)
Lemma sorted_perm_unique (l1 : list string) : forall l2,
  StronglySorted str_le l1 -> StronglySorted str_le l2 ->
  Permutation l1 l2 -> l1 = l2.
Proof.
  induction l1 as [|a l1 IH]; intros l2 S1 S2 P.
  - now apply Permutation_nil in P.
  - destruct l2 as [|b l2]; [now apply Permutation_sym, Permutation_nil in P|].
    inversion S1 as [|? ? S1' F1]; subst.
    inversion S2 as [|? ? S2' F2]; subst.
    assert (a = b) as ->.
    { assert (Ha : In a (b :: l2))
        by (eapply Permutation_in; [exact P | now left]).
      assert (Hb : In b (a :: l1))
        by (eapply Permutation_in; [symmetry; exact P | now left]).
      destruct Ha as [Ha|Ha]; [now symmetry|].
      destruct Hb as [Hb|Hb]; [assumption|].
      rewrite Forall_forall in F1, F2.
      apply str_le_antisym; [apply F1, Hb | apply F2, Ha]. }
    f_equal. apply IH; try assumption.
    eapply Permutation_cons_inv; exact P.
Qed.

Lemma sort_perm_eq (l1 l2 : list string) :
  Permutation l1 l2 -> sort l1 = sort l2.
Proof.
  intros P. apply sorted_perm_unique; try apply sort_sorted.
  rewrite !sort_perm. exact P.
Qed.

Lemma main_framed (data : document) :
  main data = framed (sort (entry_lines data)).
Proof.
  unfold main, framed, entry_lines.
  now rewrite (fold_left_append_map
                 (fun item => entry_line (fst item) (snd item))).
Qed.

Lemma entry_line_brace (name : string) (e : entry) :
  exists rest, entry_line name e = String "{" rest.
Proof. unfold entry_line. simpl. eexists. reflexivity. Qed.

End Sorting.

(** C2.  The entity generator sorts the rendered lines before it writes
    them: for two documents with the same items in different iteration
    orders, the events of the run, and so the bytes written, are the same,
    and the lines written between the fixed ones are the rendered lines of
    the document in ascending order. *)
Theorem entity_output_order_independent (d1 d2 : HtmlEntities.document) :
  Permutation d1 d2 ->
  HtmlEntities.main d1 = HtmlEntities.main d2
  /\ stdout (HtmlEntities.main d1) = stdout (HtmlEntities.main d2)
  /\ exists lines,
       HtmlEntities.main d1 = framed lines
       /\ StronglySorted str_le lines
       /\ Permutation lines (entry_lines d1)
       /\ Permutation lines (entry_lines d2).
Proof.
  intros P.
  assert (E : HtmlEntities.sort (entry_lines d1)
              = HtmlEntities.sort (entry_lines d2)).
  { apply sort_perm_eq. unfold entry_lines. now apply Permutation_map. }
  assert (M : HtmlEntities.main d1 = HtmlEntities.main d2)
    by (rewrite !main_framed; now rewrite E).
  split; [exact M|]. split; [now rewrite M|].
  exists (HtmlEntities.sort (entry_lines d1)).
  split; [apply main_framed|]. split; [apply sort_sorted|].
  split; [apply sort_perm|]. rewrite E. apply sort_perm.
Qed.

Lemma entity_output_order_independent_witness :
  Permutation amp_lt lt_amp
  /\ stdout (HtmlEntities.main amp_lt) = stdout (HtmlEntities.main lt_amp).
Proof.
  assert (P : Permutation amp_lt lt_amp) by apply perm_swap.
  split; [exact P|].
  exact (proj1 (proj2 (entity_output_order_independent amp_lt lt_amp P))).
Defined.

(** C10.  Whatever the document, also the empty one, the run prints the
    two opening lines, then the sorted entry lines joined by line feeds,
    then the two closing lines; the sorted lines are the rendered entries
    only, and none of them is one of the four fixed lines. *)
Theorem entity_output_frame (data : HtmlEntities.document) :
  exists lines,
    HtmlEntities.main data
    = ([Out "// NOLINTBEGIN"; Out "// clang-format off"]
         ++ [Out (join nl lines)]
         ++ [Out "// clang-format on"; Out "// NOLINTEND"])%list
    /\ stdout (HtmlEntities.main data)
       = "// NOLINTBEGIN" ++ nl ++ "// clang-format off" ++ nl
           ++ join nl lines ++ nl
           ++ "// clang-format on" ++ nl ++ "// NOLINTEND" ++ nl
    /\ StronglySorted str_le lines
    /\ Permutation lines (entry_lines data)
    /\ Forall (fun l => ~ In l ["// NOLINTBEGIN"; "// clang-format off";
                                "// clang-format on"; "// NOLINTEND"]) lines.
Proof.
  exists (HtmlEntities.sort (entry_lines data)).
  split; [apply main_framed|].
  split.
  { rewrite main_framed. unfold framed. cbn [stdout].
    rewrite append_empty_r. reflexivity. }
  split; [apply sort_sorted|]. split; [apply sort_perm|].
  eapply Permutation_Forall; [symmetry; apply sort_perm|].
  unfold entry_lines. rewrite Forall_map. apply Forall_forall.
  intros [name e] _. cbn [fst snd].
  destruct (entry_line_brace name e) as [rest ->].
  intros [H|[H|[H|[H|[]]]]]; discriminate H.
Qed.

Example entity_output_empty :
  stdout (HtmlEntities.main [])
  = "// NOLINTBEGIN" ++ nl ++ "// clang-format off" ++ nl ++ nl
      ++ "// clang-format on" ++ nl ++ "// NOLINTEND" ++ nl.
Proof. reflexivity. Qed.

(** ** Runs of the case-mapping generator *)

Section CaseRuns.

Import CaseTransform.

Lemma body_record (transformation : string) (n : nat) (line : string) :
  is_record line = true ->
  body transformation n line =
    let fields := record_fields line in
    if (List.length fields <? n)%nat then
      Halt [Err (columns_message n (List.length fields))] (Exited 1)
    else if startswith transformation "special"
            && (6 <=? List.length fields)%nat
    then BreakLoop
    else index fields 0 (fun first =>
           parse_hex first (fun code_point =>
             dispatch transformation fields code_point)).
Proof.
  unfold is_record, body, record_fields. intros H.
  apply andb_true_iff in H as [H1 H2].
  rewrite H1. apply negb_true_iff in H2. rewrite H2. reflexivity.
Qed.

Lemma body_not_record (transformation : string) (n : nat) (line : string) :
  is_record line = false -> body transformation n line = Continue [].
Proof.
  unfold is_record, body. intros H.
  destruct (truthy (rstrip_char newline line)); simpl in *; [|reflexivity].
  apply negb_false_iff in H. now rewrite H.
Qed.

Lemma loop_app (transformation : string) (n : nat) (pre : list string) :
  forall evs rest,
    loop transformation n pre = (evs, Exhausted) ->
    loop transformation n (pre ++ rest)
    = (let (t, e) := loop transformation n rest in ((evs ++ t)%list, e)).
Proof.
  induction pre as [|l pre IH]; intros evs rest H; simpl in *.
  - injection H as <-. now destruct (loop transformation n rest).
  - destruct (body transformation n l) as [out| |out e]; try discriminate.
    destruct (loop transformation n pre) as [t e] eqn:E.
    injection H as <- ->.
    rewrite (IH t rest eq_refl).
    destruct (loop transformation n rest) as [t' e'].
    now rewrite app_assoc.
Qed.

Lemma out_lines_app (t1 t2 : list event) :
  out_lines (t1 ++ t2) = (out_lines t1 ++ out_lines t2)%list.
Proof.
  induction t1 as [|[p|s|s] t1 IH]; simpl; auto. now rewrite IH.
Qed.

Lemma main_valid (fs : string -> option (list string))
  (prog path transformation : string) (lines : list string) :
  In transformation transformations ->
  fs path = Some lines ->
  main fs [prog; path; transformation]
  = (let (t, e) := loop transformation (expected_columns transformation) lines
     in (Opened path :: t, after_loop e)).
Proof.
  intros Hin Hfs. unfold main.
  assert (E : existsb (String.eqb transformation) transformations = true).
  { apply existsb_exists. exists transformation.
    split; [exact Hin | apply String.eqb_refl]. }
  rewrite E, Hfs. reflexivity.
Qed.

End CaseRuns.

Example scenario_simple_lower :
  CaseTransform.main (one_file [record_0041])
    ["generate"; "UnicodeData.txt"; "simple_lower"]
  = ([Opened "UnicodeData.txt"; Out "{U'\u0041',U'\u0061'},"], Finished).
Proof. reflexivity. Qed.

Example scenario_special_upper :
  CaseTransform.main (one_file [record_00DF])
    ["generate"; "SpecialCasing.txt"; "special_upper"]
  = ([Opened "SpecialCasing.txt";
      Out ("{U'\u00DF',U" ++ dquote ++ "\u0053\u0053" ++ dquote ++ "},")],
     Finished).
Proof. reflexivity. Qed.

(** C9.  An unrecognised transformation name ends the run before any file
    is opened: the only event is the diagnostic on stderr, nothing is
    printed on stdout, and the exit status is 1, whatever the file system
    holds.  A command line with another number of arguments ends the same
    way with the usage line. *)
Theorem invalid_transformation_rejected
  (fs : string -> option (list string)) (prog path transformation : string) :
  ~ In transformation CaseTransform.transformations ->
  let r := CaseTransform.main fs [prog; path; transformation] in
  r = ([Err (CaseTransform.invalid_message transformation)], Exited 1)
  /\ exit_status (snd r) = 1
  /\ opens (fst r) = false
  /\ out_lines (fst r) = []
  /\ (forall rest,
        List.length (prog :: rest) <> 3%nat ->
        CaseTransform.main fs (prog :: rest)
        = ([Err (CaseTransform.usage_message prog)], Exited 1)).
Proof.
  intros Hnot r.
  assert (E : r = ([Err (CaseTransform.invalid_message transformation)],
                   Exited 1)).
  { unfold r, CaseTransform.main.
    destruct (existsb (String.eqb transformation)
                CaseTransform.transformations) eqn:Ex; [|reflexivity].
    apply existsb_exists in Ex as (x & Hx & Heq).
    apply String.eqb_eq in Heq. subst x. contradiction. }
  rewrite E. repeat split.
  intros rest Hlen.
  destruct rest as [|a [|b [|c rest]]]; simpl in Hlen; try reflexivity.
  lia.
Qed.

Lemma invalid_transformation_rejected_witness :
  ~ In "title" CaseTransform.transformations
  /\ CaseTransform.main (one_file [record_0041])
       ["generate"; "UnicodeData.txt"; "title"]
     = ([Err ("Invalid transformation " ++ dquote ++ "title" ++ dquote)],
        Exited 1).
Proof.
  assert (H : ~ In "title" CaseTransform.transformations).
  { intros [H|[H|[H|[H|[]]]]]; discriminate H. }
  split; [exact H|].
  exact (proj1 (invalid_transformation_rejected
                  (one_file [record_0041]) "generate" "UnicodeData.txt"
                  "title" H)).
Defined.

(** C3, as the code has it.  When the records before it were processed
    without ending the loop, a record with fewer columns than the
    transformation asks for (15 for the simple ones, 5 for the special
    ones) ends the run with the expected and the actual number of columns
    on stderr and exit status 1; nothing is printed for that record or for
    any later line, and what the earlier records printed stays printed. *)
Theorem short_record_aborts
  (fs : string -> option (list string)) (prog path transformation : string)
  (pre post : list string) (bad : string) (evs : list event) :
  In transformation CaseTransform.transformations ->
  fs path = Some (pre ++ bad :: post)%list ->
  CaseTransform.loop transformation (expected_columns transformation) pre
  = (evs, CaseTransform.Exhausted) ->
  is_record bad = true ->
  (List.length (record_fields bad) < expected_columns transformation)%nat ->
  let r := CaseTransform.main fs [prog; path; transformation] in
  r = ((Opened path :: evs
          ++ [Err (CaseTransform.columns_message
                     (expected_columns transformation)
                     (List.length (record_fields bad)))])%list,
       Exited 1)
  /\ exit_status (snd r) = 1
  /\ out_lines (fst r) = out_lines evs
  /\ expected_columns transformation
     = (if (transformation =? "simple_lower")%string
           || (transformation =? "simple_upper")%string
        then 15%nat else 5%nat)
  /\ (pre = [] -> out_lines (fst r) = []).
Proof.
  intros Hin Hfs Hpre Hrec Hshort r.
  assert (E : r = ((Opened path :: evs
          ++ [Err (CaseTransform.columns_message
                     (expected_columns transformation)
                     (List.length (record_fields bad)))])%list,
       Exited 1)).
  { unfold r. rewrite (main_valid fs prog path transformation _ Hin Hfs).
    rewrite (loop_app _ _ _ _ _ Hpre). cbn [CaseTransform.loop].
    rewrite (body_record _ _ _ Hrec). cbv zeta.
    apply Nat.ltb_lt in Hshort. rewrite Hshort. reflexivity. }
  rewrite E. cbn [fst snd exit_status out_lines].
  repeat split.
  - rewrite out_lines_app. simpl. now rewrite app_nil_r.
  - destruct Hin as [<-|[<-|[<-|[<-|[]]]]]; reflexivity.
  - intros ->. simpl in Hpre. injection Hpre as <-. reflexivity.
Qed.

Lemma short_record_aborts_witness :
  let r := CaseTransform.main
             (one_file [record_0041; "0042;LATIN CAPITAL LETTER B;Lu" ++ nl;
                        record_0041])
             ["generate"; "UnicodeData.txt"; "simple_lower"] in
  r = ([Opened "UnicodeData.txt"; Out "{U'\u0041',U'\u0061'},";
        Err "Expected at least 15 columns, but got 3"], Exited 1)
  /\ exit_status (snd r) = 1.
Proof.
  assert (H1 : In "simple_lower" CaseTransform.transformations)
    by (simpl; auto).
  pose proof (short_record_aborts
                (one_file [record_0041;
                           "0042;LATIN CAPITAL LETTER B;Lu" ++ nl;
                           record_0041])
                "generate" "UnicodeData.txt" "simple_lower"
                [record_0041] [record_0041]
                ("0042;LATIN CAPITAL LETTER B;Lu" ++ nl)
                [Out "{U'\u0041',U'\u0061'},"]
                H1 eq_refl eq_refl eq_refl) as T.
  assert (H2 : (List.length
                  (record_fields ("0042;LATIN CAPITAL LETTER B;Lu" ++ nl))
                < expected_columns "simple_lower")%nat)
    by (vm_compute; lia).
  specialize (T H2).
  split; [exact (proj1 T) | exact (proj1 (proj2 T))].
Defined.

(** C3 as the specification words it does not hold: the run below meets a
    record of 3 columns and exits with status 1, yet the entry of the
    record before it has been printed. *)
Lemma short_record_partial_output :
  let lines := [record_0041; "0042;LATIN CAPITAL LETTER B;Lu" ++ nl] in
  let r := CaseTransform.main (one_file lines)
             ["generate"; "UnicodeData.txt"; "simple_lower"] in
  Forall (fun l => is_record l = true) lines
  /\ List.length (record_fields ("0042;LATIN CAPITAL LETTER B;Lu" ++ nl))
     = 3%nat
  /\ snd r = Exited 1
  /\ out_lines (fst r) = ["{U'\u0041',U'\u0061'},"]
  /\ out_lines (fst r) <> [].
Proof.
  cbv zeta. repeat split.
  - repeat constructor.
  - vm_compute. discriminate.
Qed.

(** C4.  In the special transformations, when the records before it were
    processed without ending the loop, a record of 6 or more columns ends
    the loop without an error: the run finishes with status 0, and nothing
    is printed or reported for that record or for any line after it,
    whatever those lines are. *)
Theorem conditional_record_stops
  (fs : string -> option (list string)) (prog path transformation : string)
  (pre post : list string) (line : string) (evs : list event) :
  transformation = "special_lower" \/ transformation = "special_upper" ->
  fs path = Some (pre ++ line :: post)%list ->
  CaseTransform.loop transformation 5 pre = (evs, CaseTransform.Exhausted) ->
  is_record line = true ->
  (6 <= List.length (record_fields line))%nat ->
  let r := CaseTransform.main fs [prog; path; transformation] in
  r = (Opened path :: evs, Finished)
  /\ exit_status (snd r) = 0
  /\ out_lines (fst r) = out_lines evs
  /\ CaseTransform.loop transformation 5 (pre ++ line :: post)
     = (evs, CaseTransform.Broke).
Proof.
  intros Ht Hfs Hpre Hrec Hsix r.
  assert (Hin : In transformation CaseTransform.transformations)
    by (destruct Ht as [-> | ->]; simpl; auto).
  assert (Hexp : expected_columns transformation = 5%nat)
    by (destruct Ht as [-> | ->]; reflexivity).
  assert (Hsp : startswith transformation "special" = true)
    by (destruct Ht as [-> | ->]; reflexivity).
  assert (L : CaseTransform.loop transformation 5 (pre ++ line :: post)
              = (evs, CaseTransform.Broke)).
  { rewrite (loop_app _ _ _ _ _ Hpre). cbn [CaseTransform.loop].
    rewrite (body_record _ _ _ Hrec). cbv zeta. rewrite Hsp.
    destruct (Nat.ltb_spec (List.length (record_fields line)) 5); [lia|].
    destruct (Nat.leb_spec 6 (List.length (record_fields line))); [|lia].
    simpl. now rewrite app_nil_r. }
  assert (E : r = (Opened path :: evs, Finished)).
  { unfold r. rewrite (main_valid fs prog path transformation _ Hin Hfs).
    rewrite Hexp, L. reflexivity. }
  rewrite E. repeat split. exact L.
Qed.

Lemma conditional_record_stops_witness :
  CaseTransform.main (one_file [record_00DF; record_03A3; record_00DF])
    ["generate"; "SpecialCasing.txt"; "special_upper"]
  = ([Opened "SpecialCasing.txt";
      Out ("{U'\u00DF',U" ++ dquote ++ "\u0053\u0053" ++ dquote ++ "},")],
     Finished).
Proof.
  assert (H6 : (6 <= List.length (record_fields record_03A3))%nat)
    by (vm_compute; lia).
  exact (proj1 (conditional_record_stops
                  (one_file [record_00DF; record_03A3; record_00DF])
                  "generate" "SpecialCasing.txt" "special_upper"
                  [record_00DF] [record_00DF] record_03A3
                  [Out ("{U'\u00DF',U" ++ dquote ++ "\u0053\u0053"
                          ++ dquote ++ "},")]
                  (or_intror eq_refl) eq_refl eq_refl eq_refl H6)).
Defined.

(** ** The choice made for one record *)

Section Extraction.

Import CaseTransform.

Lemma index_nth (fields : list string) (i : nat) (k : string -> step) :
  (i < List.length fields)%nat ->
  index fields i k = k (nth i fields EmptyString).
Proof.
  intros H. unfold index.
  now rewrite (nth_error_nth' fields EmptyString H).
Qed.

Lemma truthy_iff (s : string) : truthy s = true <-> s <> EmptyString.
Proof. destruct s; simpl; split; congruence. Qed.

Lemma dispatch_simple (transformation marker : string) (column : nat)
  (fields : list string) (cp : Z) :
  (transformation, marker, column) = ("simple_upper", "Ll", 12%nat)
  \/ (transformation, marker, column) = ("simple_lower", "Lu", 13%nat) ->
  (15 <= List.length fields)%nat ->
  dispatch transformation fields cp
  = if (nth 2 fields EmptyString =? marker)%string
       && truthy (nth column fields EmptyString)
    then parse_hex (nth column fields EmptyString)
           (fun t => Continue [print_simple cp t])
    else Continue [].
Proof.
  intros [E|E] H; injection E as -> -> ->; unfold dispatch;
    cbn [String.eqb Ascii.eqb Bool.eqb];
    rewrite (index_nth fields 2) by lia; cbv beta;
    destruct (String.eqb (nth 2 fields EmptyString) _); cbn [andb];
    try reflexivity; rewrite index_nth by lia; reflexivity.
Qed.

Lemma dispatch_special (transformation : string) (column : nat)
  (fields : list string) (cp : Z) :
  (transformation, column) = ("special_upper", 3%nat)
  \/ (transformation, column) = ("special_lower", 1%nat) ->
  (5 <= List.length fields)%nat ->
  dispatch transformation fields cp
  = parse_hex_all (split " " (strip (nth column fields EmptyString)))
      (fun ts => if (2 <=? List.length ts)%nat
                 then Continue [print_special cp ts] else Continue []).
Proof.
  intros [E|E] H; injection E as -> ->; unfold dispatch;
    cbn [String.eqb Ascii.eqb Bool.eqb];
    rewrite !index_nth by lia; reflexivity.
Qed.

(** A record that passed the column checks and whose first column is a
    hexadecimal numeral reaches the [match] statement. *)
Lemma body_dispatch (transformation : string) (n : nat) (line : string)
  (cp : Z) :
  is_record line = true ->
  (n <= List.length (record_fields line))%nat ->
  startswith transformation "special"
    && (6 <=? List.length (record_fields line))%nat = false ->
  int16 (nth 0 (record_fields line) EmptyString) = Some cp ->
  body transformation n line = dispatch transformation (record_fields line) cp.
Proof.
  intros Hrec Hn Hsp Hcp.
  rewrite (body_record _ _ _ Hrec). cbv zeta.
  destruct (Nat.ltb_spec (List.length (record_fields line)) n); [lia|].
  rewrite Hsp.
  assert (0 < List.length (record_fields line))%nat.
  { unfold record_fields.
    destruct (rstrip_char newline line) as [|c s]; simpl; [lia|].
    destruct (Ascii.eqb c ";"); simpl; [lia|].
    destruct (split ";" s); simpl; lia. }
  rewrite index_nth by assumption.
  unfold parse_hex. now rewrite Hcp.
Qed.

End Extraction.

(** C5, as the code has it.  For a record of at least 15 columns whose
    code point column is a hexadecimal numeral [cp], [simple_upper] prints
    a simple mapping exactly when column 2 is [Ll] and column 12 is not
    empty and is a hexadecimal numeral, and the mapping goes from [cp] to
    the value of column 12; a record that fails the gate (column 2 is not
    [Ll], or column 12 is empty) prints nothing and the run goes on; a
    record that passes the gate with a column 12 that is not a hexadecimal
    numeral ends the run with [ValueError].  [simple_lower] does the same
    with [Lu] and column 13. *)
Theorem simple_mapping_gate (transformation marker : string) (column : nat)
  (line : string) (cp : Z) :
  (transformation, marker, column) = ("simple_upper", "Ll", 12%nat)
  \/ (transformation, marker, column) = ("simple_lower", "Lu", 13%nat) ->
  is_record line = true ->
  (15 <= List.length (record_fields line))%nat ->
  int16 (nth 0 (record_fields line) EmptyString) = Some cp ->
  let category := nth 2 (record_fields line) EmptyString in
  let target := nth column (record_fields line) EmptyString in
  let s := CaseTransform.body transformation 15 line in
  (forall text,
     emits s text <->
     category = marker /\ target <> EmptyString
     /\ exists t, int16 target = Some t
                  /\ Out text = CaseTransform.print_simple cp t)
  /\ (~ (category = marker /\ target <> EmptyString) ->
      s = CaseTransform.Continue [])
  /\ (forall t, category = marker -> target <> EmptyString ->
                int16 target = Some t ->
                s = CaseTransform.Continue [CaseTransform.print_simple cp t])
  /\ (category = marker -> target <> EmptyString ->
      int16 target = None ->
      s = CaseTransform.Halt [] (Raised "ValueError")).
Proof.
  intros Hmode Hrec Hlen Hcp category target s.
  assert (Hs : s = if (category =? marker)%string && truthy target
                   then CaseTransform.parse_hex target
                          (fun t => CaseTransform.Continue
                                      [CaseTransform.print_simple cp t])
                   else CaseTransform.Continue []).
  { unfold s. rewrite (body_dispatch transformation 15 line cp Hrec Hlen);
      [ apply (dispatch_simple _ _ _ _ _ Hmode Hlen) | | exact Hcp ].
    destruct Hmode as [E|E]; injection E as -> -> ->; reflexivity. }
  rewrite Hs. clear Hs s.
  destruct (String.eqb_spec category marker) as [Hc|Hc];
    destruct (truthy target) eqn:Ht; cbn [andb].
  - apply truthy_iff in Ht. unfold CaseTransform.parse_hex.
    destruct (int16 target) as [t|] eqn:Hp; cbn [emits].
    + split; [|split; [|split]].
      * intros text. split.
        -- intros [H|[]]. split; [exact Hc|]. split; [exact Ht|].
           exists t. split; [reflexivity | now symmetry].
        -- intros (_ & _ & t' & Ht' & ->). injection Ht' as ->. now left.
      * intros Hn. exfalso. apply Hn. now split.
      * intros t' _ _ Ht'. now injection Ht' as ->.
      * intros _ _ Hn. discriminate Hn.
    + split; [|split; [|split]].
      * intros text. split; [intros [] |].
        intros (_ & _ & t' & Ht' & _). discriminate.
      * intros Hn. exfalso. apply Hn. now split.
      * intros t' _ _ Ht'. discriminate.
      * reflexivity.
  - assert (He : target = EmptyString)
      by (destruct target; [reflexivity | discriminate]).
    cbn [emits]. split; [|split; [|split]].
    + intros text. split; [intros [] |].
      intros (_ & Hne & _). contradiction.
    + reflexivity.
    + intros t _ Hne. contradiction.
    + intros _ Hne. contradiction.
  - cbn [emits]. split; [|split; [|split]].
    + intros text. split; [intros [] |]. intros (Heq & _). contradiction.
    + reflexivity.
    + intros t Heq. contradiction.
    + intros Heq. contradiction.
  - cbn [emits]. split; [|split; [|split]].
    + intros text. split; [intros [] |]. intros (Heq & _). contradiction.
    + reflexivity.
    + intros t Heq. contradiction.
    + intros Heq. contradiction.
Qed.

Lemma simple_mapping_gate_witness :
  CaseTransform.body "simple_lower" 15 record_0041
  = CaseTransform.Continue [CaseTransform.print_simple 65 97].
Proof.
  assert (H15 : (15 <= List.length (record_fields record_0041))%nat)
    by (vm_compute; lia).
  assert (Hne : nth 13 (record_fields record_0041) EmptyString <> EmptyString)
    by (vm_compute; discriminate).
  exact (proj1 (proj2 (proj2 (simple_mapping_gate "simple_lower" "Lu" 13
                                record_0041 65 (or_intror eq_refl) eq_refl
                                H15 eq_refl)))
           97 eq_refl Hne eq_refl).
Defined.

(** C5 as the specification words it does not hold.  The first record has
    15 columns, category [Ll] and a column 12 that is not empty (one
    space), yet [simple_upper] prints nothing for it: the run ends with
    [ValueError].  The second record has 15 columns and fails the gate of
    [simple_upper] (its category is [Lu]), yet it is not skipped silently:
    its code point column is not a numeral and the run ends with
    [ValueError]. *)
Lemma simple_gate_not_hexadecimal :
  is_record record_blank_upper = true
  /\ List.length (record_fields record_blank_upper) = 15%nat
  /\ nth 2 (record_fields record_blank_upper) EmptyString = "Ll"
  /\ nth 12 (record_fields record_blank_upper) EmptyString = " "
  /\ nth 12 (record_fields record_blank_upper) EmptyString <> EmptyString
  /\ CaseTransform.body "simple_upper" 15 record_blank_upper
     = CaseTransform.Halt [] (Raised "ValueError")
  /\ (forall text,
        ~ emits (CaseTransform.body "simple_upper" 15 record_blank_upper)
            text)
  /\ is_record record_bad_code_point = true
  /\ List.length (record_fields record_bad_code_point) = 15%nat
  /\ nth 2 (record_fields record_bad_code_point) EmptyString <> "Ll"
  /\ CaseTransform.body "simple_upper" 15 record_bad_code_point
     = CaseTransform.Halt [] (Raised "ValueError")
  /\ CaseTransform.body "simple_upper" 15 record_bad_code_point
     <> CaseTransform.Continue [].
Proof.
  split; [reflexivity|]. split; [reflexivity|]. split; [reflexivity|].
  split; [reflexivity|]. split; [vm_compute; discriminate|].
  split; [reflexivity|].
  split; [intros text H; vm_compute in H; exact H|].
  split; [reflexivity|]. split; [reflexivity|].
  split; [vm_compute; discriminate|].
  split; [reflexivity | vm_compute; discriminate].
Qed.

(** C6.  For a processed record of the special transformations (5 columns,
    code point column a hexadecimal numeral [cp]) the target sequence is
    read from column 3 for [special_upper] and column 1 for [special_lower]:
    the column, without the blanks around it, is split on spaces and every
    piece is read as a hexadecimal numeral.  A special mapping from [cp] to
    that sequence is printed exactly when the sequence has at least 2
    elements; a shorter sequence prints nothing. *)
Theorem special_mapping_gate (transformation : string) (column : nat)
  (line : string) (cp : Z) :
  (transformation, column) = ("special_upper", 3%nat)
  \/ (transformation, column) = ("special_lower", 1%nat) ->
  is_record line = true ->
  List.length (record_fields line) = 5%nat ->
  int16 (nth 0 (record_fields line) EmptyString) = Some cp ->
  let targets :=
    int16_all (split " " (strip (nth column (record_fields line) EmptyString)))
  in
  let s := CaseTransform.body transformation 5 line in
  (forall text,
     emits s text <->
     exists ts, targets = Some ts /\ (2 <= List.length ts)%nat
                /\ Out text = CaseTransform.print_special cp ts)
  /\ (forall ts, targets = Some ts -> (List.length ts < 2)%nat ->
                 s = CaseTransform.Continue [])
  /\ (forall ts, targets = Some ts -> (2 <= List.length ts)%nat ->
                 s = CaseTransform.Continue
                       [CaseTransform.print_special cp ts]).
Proof.
  intros Hmode Hrec Hlen Hcp targets s.
  assert (Hs : s = CaseTransform.parse_hex_all
                     (split " " (strip (nth column (record_fields line)
                                          EmptyString)))
                     (fun ts => if (2 <=? List.length ts)%nat
                                then CaseTransform.Continue
                                       [CaseTransform.print_special cp ts]
                                else CaseTransform.Continue [])).
  { unfold s. rewrite (body_dispatch transformation 5 line cp Hrec);
      [ apply (dispatch_special _ _ _ _ Hmode); lia | lia | | exact Hcp ].
    rewrite Hlen. apply andb_false_r. }
  rewrite Hs. clear Hs s. unfold CaseTransform.parse_hex_all.
  fold targets. destruct targets as [ts|].
  - destruct (Nat.leb_spec 2 (List.length ts)) as [H2|H2]; cbn [emits].
    + split; [|split].
      * intros text. split.
        -- intros [H|[]]. exists ts.
           split; [reflexivity|]. split; [exact H2 | now symmetry].
        -- intros (ts' & E & _ & ->). injection E as ->. now left.
      * intros ts' E Hlt. injection E as ->. lia.
      * intros ts' E _. now injection E as ->.
    + split; [|split].
      * intros text. split; [intros [] |].
        intros (ts' & E & Hge & _). injection E as ->. lia.
      * reflexivity.
      * intros ts' E Hge. injection E as ->. lia.
  - cbn [emits]. split; [|split].
    + intros text. split; [intros [] |]. intros (ts' & E & _). discriminate.
    + intros ts' E. discriminate.
    + intros ts' E. discriminate.
Qed.

Lemma special_mapping_gate_witness :
  CaseTransform.body "special_upper" 5 record_00DF
  = CaseTransform.Continue [CaseTransform.print_special 223 [83; 83]].
Proof.
  assert (H2 : (2 <= List.length [83; 83])%nat) by (simpl; lia).
  exact (proj2 (proj2 (special_mapping_gate "special_upper" 3 record_00DF 223
                         (or_introl eq_refl) eq_refl eq_refl eq_refl))
           [83; 83] eq_refl H2).
Defined.

(** A sequence of one element is suppressed, and the blanks around the
    column do not count as pieces. *)
Example special_single_suppressed :
  CaseTransform.body "special_lower" 5
    ("0130; 0069; 0130; 0130; # LATIN CAPITAL LETTER I WITH DOT ABOVE" ++ nl)
  = CaseTransform.Continue [].
Proof. reflexivity. Qed.

(** ** Entity lines *)

Section EntityLines.

Import HtmlEntities.

Lemma substring_0_append (s t : string) :
  String.substring 0 (String.length s) (s ++ t) = s.
Proof.
  induction s as [|c s IH]; simpl.
  - now destruct t.
  - now rewrite IH.
Qed.

Lemma string_last (s : string) :
  s <> EmptyString -> exists front b, s = front ++ String b EmptyString.
Proof.
  induction s as [|c s IH]; intros H; [contradiction|].
  destruct s as [|d s].
  - exists EmptyString, c. reflexivity.
  - destruct IH as (front & b & E); [discriminate|].
    exists (String c front), b. simpl. now rewrite E.
Qed.

(** [name[1:-1]] of a name of two or more characters is the name without
    its first and its last character. *)
Lemma slice_inner (a b : ascii) (inner : string) :
  slice 1 (-1) (String a (inner ++ String b EmptyString)) = inner.
Proof.
  unfold slice, slice_bound. cbn [String.length].
  rewrite length_append. cbn [String.length].
  set (n := String.length inner).
  replace (1 <? 0) with false by reflexivity.
  replace (-1 <? 0) with true by reflexivity.
  replace (Z.min 1 (Z.of_nat (S (n + 1)))) with 1 by lia.
  replace (Z.max 0 (-1 + Z.of_nat (S (n + 1)))) with (Z.of_nat n + 1) by lia.
  replace (Z.to_nat (Z.of_nat n + 1 - 1)) with n by lia.
  change (Z.to_nat 1) with 1%nat. cbn [String.substring].
  apply substring_0_append.
Qed.

Lemma slice_short (name : string) :
  (String.length name < 2)%nat -> slice 1 (-1) name = EmptyString.
Proof.
  destruct name as [|a [|b s]]; simpl; intros H; try reflexivity. lia.
Qed.

Lemma slice_long (name : string) :
  (2 <= String.length name)%nat ->
  exists a b, name = String a (slice 1 (-1) name ++ String b EmptyString).
Proof.
  destruct name as [|a rest]; simpl; intros H; [lia|].
  destruct (string_last rest) as (inner & b & ->).
  { destruct rest; simpl in H; [lia | discriminate]. }
  exists a, b. now rewrite slice_inner.
Qed.

End EntityLines.

(** C7, as the code has it.  The line of a definition holds the bare name
    [name[1:-1]], the number of characters of that bare name, and the
    literal of every code point of the definition, in order.  For a name of
    at least two characters the bare name is the name without its first and
    its last character; for a shorter name it is empty.  Neither the name
    nor the length of the sequence is checked. *)
Theorem entity_name_trim (name : string) (e : HtmlEntities.entry) :
  let name_cropped := slice 1 (-1) name in
  HtmlEntities.entry_line name e
  = "{u8" ++ dquote ++ name_cropped ++ dquote ++ ","
      ++ str_of_nat (String.length name_cropped) ++ ",{"
      ++ join "," (map CaseTransform.to_char_literal
                       (HtmlEntities.codepoints e))
      ++ "}},"
  /\ ((2 <= String.length name)%nat ->
      (exists a b, name = String a (name_cropped ++ String b EmptyString))
      /\ String.length name_cropped = (String.length name - 2)%nat)
  /\ ((String.length name < 2)%nat -> name_cropped = EmptyString).
Proof.
  intros name_cropped. split; [|split].
  - unfold HtmlEntities.entry_line. fold name_cropped.
    now rewrite entity_format_code_points_eq.
  - intros H. destruct (slice_long name H) as (a & b & E).
    split; [now exists a, b|].
    fold name_cropped in E.
    assert (L : String.length name = S (String.length name_cropped + 1)).
    { rewrite E at 1. cbn [String.length]. now rewrite length_append. }
    lia.
  - apply slice_short.
Qed.

Lemma entity_name_trim_witness :
  (2 <= String.length "&amp;")%nat
  /\ String.length (slice 1 (-1) "&amp;") = (String.length "&amp;" - 2)%nat.
Proof.
  assert (H : (2 <= String.length "&amp;")%nat) by (simpl; lia).
  split; [exact H|].
  exact (proj2 (proj1 (proj2 (entity_name_trim "&amp;"
                                {| HtmlEntities.codepoints := [38] |})) H)).
Defined.

(** C7 as the specification words it does not hold for a name of one
    character: nothing is left of it, so it is not a first character, the
    bare name and a last character, and the bare name is not two characters
    shorter. *)
Lemma entity_name_trim_one_char :
  slice 1 (-1) "&" = EmptyString
  /\ ~ (exists a b, "&" = String a (slice 1 (-1) "&" ++ String b EmptyString))
  /\ Z.of_nat (String.length (slice 1 (-1) "&"))
     <> Z.of_nat (String.length "&") - 2
  /\ HtmlEntities.entry_line "&" {| HtmlEntities.codepoints := [38] |}
     = "{u8" ++ dquote ++ dquote ++ ",0,{U'\u0026'}},".
Proof.
  split; [reflexivity|]. split; [|split; [|reflexivity]].
  - intros (a & b & E). discriminate E.
  - simpl. lia.
Qed.

(** ** The text of an entry *)

Section EntryText.

Import CaseTransform.

Lemma all_chars_impl (p q : ascii -> bool) (s : string) :
  (forall c, p c = true -> q c = true) ->
  all_chars p s = true -> all_chars q s = true.
Proof.
  intros Hpq. induction s as [|c s IH]; simpl; [reflexivity|].
  intros H. apply andb_true_iff in H as [Hc Hs].
  now rewrite (Hpq c Hc), IH.
Qed.

Lemma one_line_append (s t : string) :
  one_line (s ++ t) = one_line s && one_line t.
Proof. apply all_chars_append. Qed.

Lemma one_line_hex (s : string) :
  all_chars upper_hex s = true -> one_line s = true.
Proof.
  apply all_chars_impl. intros c H.
  destruct (Ascii.eqb_spec c newline) as [->|_]; [discriminate H | reflexivity].
Qed.

Lemma one_line_format (w : nat) (v : Z) : one_line (format_0X w v) = true.
Proof.
  unfold format_0X. rewrite !one_line_append.
  destruct (hex_upper_spec (Z.abs_N v)) as (_ & Hall & _).
  rewrite (one_line_hex _ Hall), (one_line_hex _ (all_chars_zeros _)).
  now destruct (v <? 0).
Qed.

Lemma one_line_escape (cp : Z) : one_line (to_char_escape cp) = true.
Proof.
  unfold to_char_escape.
  destruct (cp >? 65535); rewrite one_line_append, one_line_format;
    reflexivity.
Qed.

Lemma one_line_literal (cp : Z) : one_line (to_char_literal cp) = true.
Proof.
  unfold to_char_literal.
  now rewrite !one_line_append, one_line_escape.
Qed.

Lemma one_line_join (sep : string) (parts : list string) :
  one_line sep = true ->
  Forall (fun p => one_line p = true) parts ->
  one_line (join sep parts) = true.
Proof.
  intros Hsep. induction 1 as [|p rest Hp Hrest IH]; [reflexivity|].
  destruct rest as [|q rest]; [exact Hp|].
  change (join sep (p :: q :: rest)) with (p ++ sep ++ join sep (q :: rest)).
  now rewrite !one_line_append, Hp, Hsep, IH.
Qed.

Lemma one_line_code_points (cps : list Z) :
  one_line (format_code_points cps) = true.
Proof.
  unfold format_code_points. apply one_line_join; [reflexivity|].
  apply Forall_map, Forall_forall. intros cp _. apply one_line_literal.
Qed.

Lemma one_line_print_simple (cp t : Z) :
  exists text, print_simple cp t = Out text /\ one_line text = true.
Proof.
  eexists. split; [reflexivity|].
  now rewrite !one_line_append, one_line_code_points.
Qed.

Lemma one_line_print_special (cp : Z) (ts : list Z) :
  exists text, print_special cp ts = Out text /\ one_line text = true.
Proof.
  eexists. split; [reflexivity|].
  rewrite !one_line_append, one_line_literal.
  rewrite one_line_join; [reflexivity | reflexivity |].
  apply Forall_map, Forall_forall. intros c _. apply one_line_escape.
Qed.

Lemma dispatch_one_entry (transformation : string) (fields : list string)
  (cp : Z) (out : list event) :
  dispatch transformation fields cp = Continue out -> one_entry out.
Proof.
  unfold dispatch, index, parse_hex, parse_hex_all.
  repeat match goal with
         | |- context [if ?c then _ else _] => destruct c
         | |- context [match nth_error ?l ?i with _ => _ end] =>
             destruct (nth_error l i)
         | |- context [match int16 ?s with _ => _ end] => destruct (int16 s)
         | |- context [match int16_all ?s with _ => _ end] =>
             destruct (int16_all s)
         end;
    intros H; try discriminate H; injection H as <-; unfold one_entry;
    eauto 6.
Qed.

Lemma body_one_entry (transformation : string) (n : nat) (line : string)
  (out : list event) :
  body transformation n line = Continue out -> one_entry out.
Proof.
  unfold body, index, parse_hex.
  repeat match goal with
         | |- context [if ?c then _ else _] => destruct c
         | |- context [match nth_error ?l ?i with _ => _ end] =>
             destruct (nth_error l i)
         | |- context [match int16 ?s with _ => _ end] => destruct (int16 s)
         end;
    try (intros H; discriminate H);
    try (intros H; injection H as <-; now left).
  apply dispatch_one_entry.
Qed.

Lemma one_line_str_of_nat (n : nat) : one_line (str_of_nat n) = true.
Proof.
  unfold str_of_nat. generalize (Nat.to_uint n) as d.
  induction d; simpl; auto.
Qed.

Lemma all_chars_substring (p : ascii -> bool) (s : string) : forall n m,
  all_chars p s = true -> all_chars p (String.substring n m s) = true.
Proof.
  induction s as [|c s IH]; intros [|n] [|m] H; simpl in *; try reflexivity.
  - apply andb_true_iff in H as [Hc Hs]. rewrite Hc. now apply IH.
  - apply andb_true_iff in H as [_ Hs]. now apply IH.
  - apply andb_true_iff in H as [_ Hs]. now apply IH.
Qed.

Lemma one_line_entry (name : string) (e : HtmlEntities.entry) :
  one_line name = true -> one_line (HtmlEntities.entry_line name e) = true.
Proof.
  intros H. unfold HtmlEntities.entry_line.
  rewrite entity_format_code_points_eq.
  rewrite !one_line_append, one_line_code_points, one_line_str_of_nat.
  unfold slice, one_line. rewrite (all_chars_substring _ _ _ _ H).
  reflexivity.
Qed.

End EntryText.

(** C8, as the code has it.  Every entry is printed by one call, as one
    line, and its text is the brace literal followed by a comma: a simple
    mapping is [{from,to},], a special mapping is [{from,string},], an
    entity is [{name,length,{code points}},] (one line when the name holds
    no line feed).  A step of the case-mapping loop prints at most one
    entry.  The record of LATIN CAPITAL LETTER A under [simple_lower] and
    the entity [&amp;] give the lines shown. *)
Theorem entry_text :
  (forall cp t,
     CaseTransform.print_simple cp t
     = Out ("{" ++ CaseTransform.to_char_literal cp ++ ","
                ++ CaseTransform.to_char_literal t ++ "}" ++ ","))
  /\ (forall cp ts,
        CaseTransform.print_special cp ts
        = Out ("{" ++ CaseTransform.to_char_literal cp ++ ","
                   ++ ("U" ++ dquote
                           ++ join EmptyString
                                (map CaseTransform.to_char_escape ts)
                           ++ dquote)
                   ++ "}" ++ ","))
  /\ (forall cp t ts text,
        CaseTransform.print_simple cp t = Out text
        \/ CaseTransform.print_special cp ts = Out text ->
        one_line text = true)
  /\ (forall transformation n line out,
        CaseTransform.body transformation n line = CaseTransform.Continue out ->
        one_entry out)
  /\ (forall name e,
        one_line name = true ->
        one_line (HtmlEntities.entry_line name e) = true)
  /\ (forall name e,
        HtmlEntities.entry_line name e
        = "{" ++ ("u8" ++ dquote ++ slice 1 (-1) name ++ dquote ++ ","
                    ++ str_of_nat (String.length (slice 1 (-1) name)) ++ ","
                    ++ "{" ++ CaseTransform.format_code_points
                                (HtmlEntities.codepoints e) ++ "}")
              ++ "}" ++ ",")
  /\ out_lines (fst (CaseTransform.main (one_file [record_0041])
                       ["generate"; "UnicodeData.txt"; "simple_lower"]))
     = ["{U'\u0041',U'\u0061'},"]
  /\ out_lines (HtmlEntities.main amp)
     = ["// NOLINTBEGIN"; "// clang-format off";
        "{u8" ++ dquote ++ "amp" ++ dquote ++ ",3,{U'\u0026'}},";
        "// clang-format on"; "// NOLINTEND"].
Proof.
  split; [|split; [|split; [|split; [|split; [|split; [|split]]]]]].
  - intros cp t. unfold CaseTransform.print_simple,
      CaseTransform.format_code_points.
    cbn [map join]. f_equal. cbn [append]. f_equal.
    rewrite ?append_assoc. reflexivity.
  - intros cp ts. reflexivity.
  - intros cp t ts text [H|H].
    + destruct (one_line_print_simple cp t) as (text' & E & L).
      rewrite E in H. now injection H as <-.
    + destruct (one_line_print_special cp ts) as (text' & E & L).
      rewrite E in H. now injection H as <-.
  - exact body_one_entry.
  - exact one_line_entry.
  - intros name e. unfold HtmlEntities.entry_line. cbv zeta.
    rewrite entity_format_code_points_eq.
    repeat (rewrite ?append_assoc; cbn [append]). reflexivity.
  - reflexivity.
  - reflexivity.
Qed.

Lemma entry_text_witness :
  one_entry [CaseTransform.print_simple 65 97].
Proof.
  exact (proj1 (proj2 (proj2 (proj2 entry_text)))
           "simple_lower" 15%nat record_0041
           [CaseTransform.print_simple 65 97] eq_refl).
Defined.

(** C8 as the specification words it does not hold: the line printed for
    the record of LATIN CAPITAL LETTER A, and the line of the entity
    [&amp;], end in a comma after the closing brace. *)
Lemma entry_text_trailing_comma :
  out_lines (fst (CaseTransform.main (one_file [record_0041])
                    ["generate"; "UnicodeData.txt"; "simple_lower"]))
  = ["{U'\u0041',U'\u0061'},"]
  /\ out_lines (fst (CaseTransform.main (one_file [record_0041])
                       ["generate"; "UnicodeData.txt"; "simple_lower"]))
     <> ["{U'\u0041',U'\u0061'}"]
  /\ entry_lines amp
     = ["{u8" ++ dquote ++ "amp" ++ dquote ++ ",3,{U'\u0026'}},"]
  /\ entry_lines amp
     <> ["{u8" ++ dquote ++ "amp" ++ dquote ++ ",3,{U'\u0026'}}"].
Proof.
  split; [reflexivity|]. split; [vm_compute; discriminate|].
  split; [reflexivity|]. vm_compute; discriminate.
Qed.

(** * Further properties of the generators *)

(** ** Every step of the case-mapping loop *)

Section MoreCaseRuns.

Import CaseTransform.

Ltac split_step :=
  repeat match goal with
         | |- context [if ?c then _ else _] => destruct c
         | |- context [match nth_error ?l ?i with _ => _ end] =>
             destruct (nth_error l i)
         | |- context [match int16 ?s with _ => _ end] => destruct (int16 s)
         | |- context [match int16_all ?s with _ => _ end] =>
             destruct (int16_all s)
         end.

Lemma dispatch_halt_silent (transformation : string) (fields : list string)
  (cp : Z) (out : list event) (e : ending) :
  dispatch transformation fields cp = Halt out e -> out = [].
Proof.
  unfold dispatch, index, parse_hex, parse_hex_all. split_step;
    intros H; try discriminate H; now injection H as <- _.
Qed.

Lemma dispatch_no_break (transformation : string) (fields : list string)
  (cp : Z) : dispatch transformation fields cp <> BreakLoop.
Proof.
  unfold dispatch, index, parse_hex, parse_hex_all. split_step; discriminate.
Qed.

(** A step that ends the run has printed nothing on stdout. *)
Lemma body_halt_no_out (transformation : string) (n : nat) (line : string)
  (out : list event) (e : ending) :
  body transformation n line = Halt out e -> out_lines out = [].
Proof.
  unfold body, index, parse_hex. split_step;
    try (intros H; discriminate H);
    try (intros H; injection H as <- _; reflexivity).
  intros H. now rewrite (dispatch_halt_silent _ _ _ _ _ H).
Qed.

Lemma body_no_break (transformation : string) (n : nat) (line : string) :
  startswith transformation "special" = false ->
  body transformation n line <> BreakLoop.
Proof.
  intros Hs. unfold body, index, parse_hex. rewrite Hs. cbn [andb].
  split_step; try discriminate. apply dispatch_no_break.
Qed.

Lemma one_entry_length (out : list event) :
  one_entry out -> (List.length (out_lines out) <= 1)%nat.
Proof.
  intros [->|[(cp & t & ->)|(cp & ts & ->)]]; simpl; lia.
Qed.

Lemma one_entry_no_err (out : list event) :
  one_entry out -> err_lines out = [].
Proof.
  intros [->|[(cp & t & ->)|(cp & ts & ->)]]; reflexivity.
Qed.

Lemma err_lines_app (t1 t2 : list event) :
  err_lines (t1 ++ t2) = (err_lines t1 ++ err_lines t2)%list.
Proof.
  induction t1 as [|[p|s|s] t1 IH]; simpl; auto. now rewrite IH.
Qed.

Lemma line_out_continue (transformation : string) (n : nat) (line : string)
  (out : list event) :
  body transformation n line = Continue out ->
  line_out transformation n line = out_lines out.
Proof. unfold line_out. now intros ->. Qed.

End MoreCaseRuns.

(** X1.  Blank lines and comment lines do not count: a run over the lines
    without them gives the events and the end of the run over all the
    lines, for every transformation and column minimum. *)
Theorem blank_and_comment_lines_ignored (transformation : string) (n : nat)
  (lines : list string) :
  CaseTransform.loop transformation n (filter is_record lines)
  = CaseTransform.loop transformation n lines.
Proof.
  induction lines as [|l lines IH]; [reflexivity|].
  cbn [filter]. destruct (is_record l) eqn:R.
  - cbn [CaseTransform.loop]. now rewrite IH.
  - cbn [CaseTransform.loop]. rewrite (body_not_record _ _ _ R), IH.
    now destruct (CaseTransform.loop transformation n lines).
Qed.

(** X2.  The case-mapping output follows the input.  Let [k] be the number
    of lines the loop goes past, that is the lines at the front whose step
    goes on to the next line.  What a run has printed on stdout is what the
    first [k] lines contribute, in their order, and nothing else; the loop
    ends exhausted when there is no line after them, and otherwise as the
    step of the next line says: by [break], or with the ending of the
    step that ended the run. *)
Theorem case_output_in_input_order (transformation : string) (n : nat)
  (lines : list string) :
  let k := lines_passed transformation n lines in
  let r := CaseTransform.loop transformation n lines in
  (k <= List.length lines)%nat
  /\ out_lines (fst r) = flat_map (line_out transformation n) (firstn k lines)
  /\ match nth_error lines k with
     | None => snd r = CaseTransform.Exhausted
     | Some line =>
         match CaseTransform.body transformation n line with
         | CaseTransform.Continue _ => False
         | CaseTransform.BreakLoop => snd r = CaseTransform.Broke
         | CaseTransform.Halt _ e => snd r = CaseTransform.Halted e
         end
     end.
Proof.
  cbv zeta. induction lines as [|l lines (Hk & Hout & Hend)].
  - repeat split. simpl. lia.
  - cbn [CaseTransform.loop lines_passed].
    destruct (CaseTransform.body transformation n l) as [out| |out e] eqn:B.
    + destruct (CaseTransform.loop transformation n lines) as [t e].
      cbn [fst snd] in *. split; [simpl; lia|]. split.
      * cbn [firstn flat_map].
        now rewrite out_lines_app, Hout, (line_out_continue _ _ _ _ B).
      * cbn [nth_error]. exact Hend.
    + cbn [fst snd nth_error firstn flat_map out_lines]. rewrite B.
      repeat split. simpl. lia.
    + cbn [fst snd nth_error firstn flat_map]. rewrite B.
      split; [simpl; lia|]. split; [|reflexivity].
      exact (body_halt_no_out _ _ _ _ _ B).
Qed.

(** X3.  A run prints at most one entry for each record: the number of
    lines on stdout never exceeds the number of lines that are neither
    blank nor comments. *)
Theorem at_most_one_entry_per_record (transformation : string) (n : nat)
  (lines : list string) :
  (List.length (out_lines (fst (CaseTransform.loop transformation n lines)))
   <= List.length (filter is_record lines))%nat.
Proof.
  induction lines as [|l lines IH]; [simpl; lia|].
  cbn [CaseTransform.loop filter].
  destruct (CaseTransform.body transformation n l) as [out| |out e] eqn:B.
  - destruct (CaseTransform.loop transformation n lines) as [t e].
    cbn [fst] in *. rewrite out_lines_app, length_app.
    destruct (is_record l) eqn:R.
    + pose proof (one_entry_length out (body_one_entry _ _ _ _ B)).
      simpl. lia.
    + rewrite (body_not_record _ _ _ R) in B. injection B as <-.
      simpl. lia.
  - simpl. lia.
  - cbn [fst]. rewrite (body_halt_no_out _ _ _ _ _ B). simpl. lia.
Qed.

(** X6.  Only the special transformations leave the loop early without
    an error: for a transformation whose name does not start with
    [special] the loop is never left by [break]. *)
Theorem simple_modes_never_break (transformation : string) (n : nat)
  (lines : list string) :
  startswith transformation "special" = false ->
  snd (CaseTransform.loop transformation n lines) <> CaseTransform.Broke.
Proof.
  intros Hs. induction lines as [|l lines IH]; [discriminate|].
  cbn [CaseTransform.loop].
  destruct (CaseTransform.body transformation n l) as [out| |out e] eqn:B.
  - destruct (CaseTransform.loop transformation n lines) as [t e].
    exact IH.
  - now apply body_no_break in B.
  - discriminate.
Qed.

Lemma simple_modes_never_break_witness :
  snd (CaseTransform.loop "simple_lower" 15 [record_03A3; record_0041])
  <> CaseTransform.Broke.
Proof.
  exact (simple_modes_never_break "simple_lower" 15
           [record_03A3; record_0041] eq_refl).
Defined.

(** ** How a run of the case-mapping generator can end *)

Section RunEndings.

Import CaseTransform.

Lemma record_fields_nonempty (line : string) :
  (0 < List.length (record_fields line))%nat.
Proof.
  unfold record_fields.
  destruct (rstrip_char newline line) as [|c s]; simpl; [lia|].
  destruct (Ascii.eqb c ";"); simpl; [lia|].
  destruct (split ";" s); simpl; lia.
Qed.

Lemma int16_all_length (parts : list string) : forall vs,
  int16_all parts = Some vs -> List.length vs = List.length parts.
Proof.
  induction parts as [|p parts IH]; simpl; intros vs H.
  - now injection H as <-.
  - destruct (int16 p); [|discriminate].
    destruct (int16_all parts) as [ws|]; [|discriminate].
    injection H as <-. simpl. now rewrite (IH ws eq_refl).
Qed.

Lemma split_nonempty (sep : ascii) (s : string) :
  (1 <= List.length (split sep s))%nat.
Proof.
  induction s as [|c s IH]; simpl; [lia|].
  destruct (Ascii.eqb c sep); simpl; [lia|].
  destruct (split sep s); simpl in *; lia.
Qed.

(** With the column minimum [main] chooses, a step goes on with at most
    one entry, breaks, reports a short record, or raises [ValueError]. *)
Lemma body_main_cases (transformation : string) (line : string) :
  In transformation transformations ->
  let n := expected_columns transformation in
  let s := body transformation n line in
  (exists out, s = Continue out /\ one_entry out)
  \/ s = BreakLoop
  \/ (exists k, s = Halt [Err (columns_message n k)] (Exited 1))
  \/ s = Halt [] (Raised "ValueError").
Proof.
  intros Hin n s. subst s.
  destruct (is_record line) eqn:R.
  2:{ left. exists []. split; [now apply body_not_record | now left]. }
  rewrite (body_record _ _ _ R). cbv zeta.
  destruct (Nat.ltb_spec (List.length (record_fields line)) n) as [Hlt|Hge].
  { right. right. left. now eexists. }
  destruct (startswith transformation "special"
            && (6 <=? List.length (record_fields line))%nat).
  { right. now left. }
  rewrite index_nth by apply record_fields_nonempty.
  unfold parse_hex.
  destruct (int16 (nth 0 (record_fields line) EmptyString)) as [cp|].
  2:{ right. right. right. reflexivity. }
  destruct (dispatch transformation (record_fields line) cp)
    as [out| |out e] eqn:D.
  - left. exists out. split; [reflexivity|].
    exact (dispatch_one_entry _ _ _ _ D).
  - now apply dispatch_no_break in D.
  - right. right. right.
    assert (Hn : (n = 15 \/ n = 5)%nat)
      by (subst n; destruct Hin as [<-|[<-|[<-|[<-|[]]]]]; auto).
    revert D.
    destruct Hin as [<-|[<-|[<-|[<-|[]]]]]; subst n.
    + rewrite (dispatch_simple "simple_lower" "Lu" 13) by (auto; exact Hge).
      destruct (_ && _); [|discriminate].
      unfold parse_hex. destruct (int16 _); [discriminate|]. congruence.
    + rewrite (dispatch_simple "simple_upper" "Ll" 12) by (auto; exact Hge).
      destruct (_ && _); [|discriminate].
      unfold parse_hex. destruct (int16 _); [discriminate|]. congruence.
    + rewrite (dispatch_special "special_lower" 1) by (auto; exact Hge).
      unfold parse_hex_all. destruct (int16_all _); [|congruence].
      destruct (_ <=? _)%nat; discriminate.
    + rewrite (dispatch_special "special_upper" 3) by (auto; exact Hge).
      unfold parse_hex_all. destruct (int16_all _); [|congruence].
      destruct (_ <=? _)%nat; discriminate.
Qed.

Lemma loop_main_cases (transformation : string) (lines : list string) :
  In transformation transformations ->
  let r := loop transformation (expected_columns transformation) lines in
  ((snd r = Exhausted \/ snd r = Broke) /\ err_lines (fst r) = [])
  \/ (snd r = Halted (Exited 1) /\ exists msg, err_lines (fst r) = [msg])
  \/ (snd r = Halted (Raised "ValueError") /\ err_lines (fst r) = []).
Proof.
  intros Hin. induction lines as [|l lines IH]; cbv zeta in *.
  - left. split; [now left | reflexivity].
  - cbn [loop].
    destruct (body_main_cases transformation l Hin)
      as [(out & B & Hone)|[B|[(k & B)|B]]]; cbv zeta in B; rewrite B.
    + destruct (loop transformation (expected_columns transformation) lines)
        as [t e]. cbn [fst snd] in *.
      rewrite err_lines_app, (one_entry_no_err _ Hone). exact IH.
    + left. split; [now right | reflexivity].
    + right. left. split; [reflexivity | now eexists].
    + right. right. now split.
Qed.

End RunEndings.

(** X4.  A run of the case-mapping generator with a non-empty command
    line ends in one of four ways: it finishes, with nothing on stderr; it
    exits with code 1, with exactly one message on stderr; it raises
    [ValueError] or [OSError], with no message of the script on stderr
    (and, for [OSError], nothing on stdout).  In particular no column
    access raises [IndexError] and the exit of the default [case] branch,
    which prints nothing, is never taken. *)
Theorem case_run_endings (fs : string -> option (list string))
  (argv : list string) :
  argv <> [] ->
  let r := CaseTransform.main fs argv in
  (snd r = Finished /\ err_lines (fst r) = [])
  \/ (snd r = Exited 1 /\ exists msg, err_lines (fst r) = [msg])
  \/ (snd r = Raised "ValueError" /\ err_lines (fst r) = [])
  \/ (snd r = Raised "OSError" /\ err_lines (fst r) = []
      /\ out_lines (fst r) = []).
Proof.
  intros Hne. cbv zeta.
  destruct argv as [|prog [|path [|transformation [|extra rest]]]];
    [contradiction | | | |];
    try (right; left; split; [reflexivity | now eexists]).
  unfold CaseTransform.main.
  destruct (existsb (String.eqb transformation) CaseTransform.transformations)
    eqn:Ex; cbn [negb].
  2:{ right. left. split; [reflexivity | now eexists]. }
  apply existsb_exists in Ex as (x & Hin & Heq).
  apply String.eqb_eq in Heq. subst x.
  destruct (fs path) as [lines|].
  2:{ right. right. right. now repeat split. }
  pose proof (loop_main_cases transformation lines Hin) as L.
  cbv zeta in L. unfold expected_columns in L.
  destruct (CaseTransform.loop transformation
              (if startswith transformation "simple" then 15%nat else 5%nat)
              lines) as [t e].
  cbn [fst snd] in *.
  destruct L as [[[E | E] He]|[[E (msg & He)]|[E He]]]; subst e;
    cbn [CaseTransform.after_loop].
  - left. now split.
  - left. now split.
  - right. left. split; [reflexivity | now exists msg].
  - right. right. left. now split.
Qed.

Lemma case_run_endings_witness :
  let r := CaseTransform.main (one_file [record_0041; "zz" ++ nl])
             ["generate"; "UnicodeData.txt"; "simple_lower"] in
  (snd r = Finished /\ err_lines (fst r) = [])
  \/ (snd r = Exited 1 /\ exists msg, err_lines (fst r) = [msg])
  \/ (snd r = Raised "ValueError" /\ err_lines (fst r) = [])
  \/ (snd r = Raised "OSError" /\ err_lines (fst r) = []
      /\ out_lines (fst r) = []).
Proof.
  assert (H : ["generate"; "UnicodeData.txt"; "simple_lower"] <> [])
    by discriminate.
  exact (case_run_endings (one_file [record_0041; "zz" ++ nl])
           ["generate"; "UnicodeData.txt"; "simple_lower"] H).
Defined.

(** X5.  A record whose code point column is not a hexadecimal numeral
    ends the run with [ValueError]: when the records before it were
    processed without ending the loop and the record passed the column
    checks, the events of the run are those of the earlier records, no
    message is printed for it and the exit status is 1. *)
Theorem malformed_code_point_raises
  (fs : string -> option (list string)) (prog path transformation : string)
  (pre post : list string) (bad : string) (evs : list event) :
  In transformation CaseTransform.transformations ->
  fs path = Some (pre ++ bad :: post)%list ->
  CaseTransform.loop transformation (expected_columns transformation) pre
  = (evs, CaseTransform.Exhausted) ->
  is_record bad = true ->
  (expected_columns transformation <= List.length (record_fields bad))%nat ->
  startswith transformation "special"
    && (6 <=? List.length (record_fields bad))%nat = false ->
  int16 (nth 0 (record_fields bad) EmptyString) = None ->
  let r := CaseTransform.main fs [prog; path; transformation] in
  r = (Opened path :: evs, Raised "ValueError")
  /\ exit_status (snd r) = 1
  /\ err_lines (fst r) = err_lines evs.
Proof.
  intros Hin Hfs Hpre Hrec Hlen Hsp Hbad r.
  assert (E : r = (Opened path :: evs, Raised "ValueError")).
  { unfold r. rewrite (main_valid fs prog path transformation _ Hin Hfs).
    rewrite (loop_app _ _ _ _ _ Hpre). cbn [CaseTransform.loop].
    rewrite (body_record _ _ _ Hrec). cbv zeta.
    destruct (Nat.ltb_spec (List.length (record_fields bad))
                (expected_columns transformation)); [lia|].
    rewrite Hsp, index_nth by apply record_fields_nonempty.
    unfold CaseTransform.parse_hex. rewrite Hbad.
    now rewrite app_nil_r. }
  rewrite E. now repeat split.
Qed.

Lemma malformed_code_point_raises_witness :
  CaseTransform.main
    (one_file [record_00DF; "00G0; 0041; 0042 0043; 0044 0045; # x" ++ nl])
    ["generate"; "SpecialCasing.txt"; "special_upper"]
  = ([Opened "SpecialCasing.txt";
      Out ("{U'\u00DF',U" ++ dquote ++ "\u0053\u0053" ++ dquote ++ "},")],
     Raised "ValueError").
Proof.
  assert (H5 : (expected_columns "special_upper"
                <= List.length
                     (record_fields
                        ("00G0; 0041; 0042 0043; 0044 0045; # x" ++ nl)))%nat)
    by (vm_compute; lia).
  exact (proj1 (malformed_code_point_raises
                  (one_file [record_00DF;
                             "00G0; 0041; 0042 0043; 0044 0045; # x" ++ nl])
                  "generate" "SpecialCasing.txt" "special_upper"
                  [record_00DF] []
                  ("00G0; 0041; 0042 0043; 0044 0045; # x" ++ nl)
                  [Out ("{U'\u00DF',U" ++ dquote ++ "\u0053\u0053"
                          ++ dquote ++ "},")]
                  (or_intror (or_intror (or_intror (or_introl eq_refl))))
                  eq_refl eq_refl eq_refl H5 eq_refl eq_refl)).
Defined.

(** X7.  What the special transformations suppress is exactly the target
    of one code point: for a processed record (5 columns, code point column
    a hexadecimal numeral) the step prints nothing and goes on if and only
    if the target column holds a single hexadecimal numeral; a target
    sequence is never empty. *)
Theorem special_suppressed_is_single (transformation : string) (column : nat)
  (line : string) (cp : Z) :
  (transformation, column) = ("special_upper", 3%nat)
  \/ (transformation, column) = ("special_lower", 1%nat) ->
  is_record line = true ->
  List.length (record_fields line) = 5%nat ->
  int16 (nth 0 (record_fields line) EmptyString) = Some cp ->
  let targets :=
    int16_all (split " " (strip (nth column (record_fields line) EmptyString)))
  in
  (CaseTransform.body transformation 5 line = CaseTransform.Continue []
   <-> exists t, targets = Some [t])
  /\ targets <> Some [].
Proof.
  intros Hmode Hrec Hlen Hcp targets.
  assert (Hs : CaseTransform.body transformation 5 line
               = CaseTransform.parse_hex_all
                   (split " " (strip (nth column (record_fields line)
                                        EmptyString)))
                   (fun ts => if (2 <=? List.length ts)%nat
                              then CaseTransform.Continue
                                     [CaseTransform.print_special cp ts]
                              else CaseTransform.Continue [])).
  { rewrite (body_dispatch transformation 5 line cp Hrec);
      [ apply (dispatch_special _ _ _ _ Hmode); lia | lia | | exact Hcp ].
    rewrite Hlen. apply andb_false_r. }
  assert (Hne : targets <> Some []).
  { intros E. apply int16_all_length in E.
    pose proof (split_nonempty " "
                  (strip (nth column (record_fields line) EmptyString))).
    simpl in E. lia. }
  split; [|exact Hne].
  rewrite Hs. unfold CaseTransform.parse_hex_all. fold targets.
  destruct targets as [[|t [|t' ts]]|]; cbn [List.length Nat.leb].
  - contradiction.
  - split; [now exists t | reflexivity].
  - split; [discriminate | intros (t0 & E); discriminate E].
  - split; [discriminate | intros (t0 & E); discriminate E].
Qed.

Lemma special_suppressed_is_single_witness :
  CaseTransform.body "special_lower" 5
    ("0130; 0069; 0130; 0130; # LATIN CAPITAL LETTER I WITH DOT ABOVE" ++ nl)
  = CaseTransform.Continue [].
Proof.
  exact (proj2 (proj1 (special_suppressed_is_single "special_lower" 1
                         ("0130; 0069; 0130; 0130; # LATIN CAPITAL LETTER I WITH DOT ABOVE" ++ nl)
                         304 (or_intror eq_refl) eq_refl eq_refl eq_refl))
           (ex_intro _ 105 eq_refl)).
Defined.

(** ** Reading an escape back *)

Section EscapeRoundTrip.

Import CaseTransform.

Ltac each_char c := destruct c as [[] [] [] [] [] [] [] []].

Lemma upper_hex_char (c : ascii) :
  upper_hex c = true ->
  int_space c = false
  /\ Ascii.eqb c "_" = false
  /\ exists d, hex_value c = Some d.
Proof.
  each_char c; intros H; try discriminate H;
    (split; [reflexivity | split; [reflexivity | eexists; reflexivity]]).
Qed.

Lemma scan_hex_upper (s : string) : forall acc,
  all_chars upper_hex s = true ->
  scan_hex s false acc
  = match hex_read acc s with
    | Some v => Some (v, EmptyString)
    | None => None
    end.
Proof.
  induction s as [|c s IH]; intros acc H; [reflexivity|].
  cbn [all_chars] in H. apply andb_true_iff in H as [Hc Hs].
  destruct (upper_hex_char c Hc) as (_ & Hu & d & Hd).
  cbn [scan_hex hex_read]. rewrite Hu, Hd. now apply IH.
Qed.

Lemma int_sign_upper (c : ascii) (s : string) :
  upper_hex c = true -> int_sign (String c s) = (false, String c s).
Proof. each_char c; intros H; try discriminate H; reflexivity. Qed.

Lemma int_prefix_upper (s : string) :
  all_chars upper_hex s = true -> int_prefix s = s.
Proof.
  destruct s as [|c [|x s]]; try reflexivity.
  - each_char c; reflexivity.
  - cbn [all_chars]. intros H.
    apply andb_true_iff in H as [Hc H]. apply andb_true_iff in H as [Hx _].
    revert Hc. each_char c; intros Hc; try discriminate Hc; try reflexivity.
    revert Hx. each_char x; intros Hx; try discriminate Hx; reflexivity.
Qed.

Lemma not_underscore_first (c : ascii) (s : string) (A : Type) (a b : A) :
  upper_hex c = true ->
  match String c s with String "_" _ => a | _ => b end = b.
Proof. each_char c; intros H; try discriminate H; reflexivity. Qed.

(** [int(s, 16)] of a non-empty string of digits [0-9A-F], with or
    without a sign in front. *)
Lemma int16_digits (negative : bool) (s : string) :
  all_chars upper_hex s = true -> s <> EmptyString ->
  int16 ((if negative then "-" else EmptyString) ++ s)
  = match hex_read 0 s with
    | Some v => Some (if negative then - Z.of_N v else Z.of_N v)
    | None => None
    end.
Proof.
  intros H Hne. destruct s as [|c s]; [contradiction|].
  pose proof H as H'. cbn [all_chars] in H'.
  apply andb_true_iff in H' as [Hc _].
  destruct (upper_hex_char c Hc) as (Hsp & _ & _).
  assert (E : int_sign (lstrip_by int_space
                          ((if negative then "-" else EmptyString)
                             ++ String c s))
              = (negative, String c s)).
  { destruct negative; cbn [append lstrip_by].
    - reflexivity.
    - rewrite Hsp. now apply int_sign_upper. }
  unfold int16. rewrite E, (int_prefix_upper _ H).
  rewrite (not_underscore_first c s _ _ _ Hc).
  rewrite (scan_hex_upper _ _ H).
  destruct (hex_read 0 (String c s)); reflexivity.
Qed.

Lemma hex_upper_nonempty (n : N) : hex_upper n <> EmptyString.
Proof.
  destruct (hex_upper_spec n) as (H & _).
  destruct (hex_upper n); [simpl in H; lia | discriminate].
Qed.

(** [int(format(v, "0wX"), 16)] is [v], for every integer and width. *)
Lemma format_0X_int16 (w : nat) (v : Z) : int16 (format_0X w v) = Some v.
Proof.
  unfold format_0X.
  destruct (hex_upper_spec (Z.abs_N v)) as (_ & Hall & Hval & _).
  set (pad := zeros (w - String.length (if v <? 0 then "-" else EmptyString)
                       - String.length (hex_upper (Z.abs_N v)))).
  assert (Hd : all_chars upper_hex (pad ++ hex_upper (Z.abs_N v)) = true)
    by (unfold pad; now rewrite all_chars_append, all_chars_zeros, Hall).
  assert (Hn : pad ++ hex_upper (Z.abs_N v) <> EmptyString).
  { destruct pad; [apply hex_upper_nonempty | discriminate]. }
  assert (Hr : hex_read 0 (pad ++ hex_upper (Z.abs_N v)) = Some (Z.abs_N v)).
  { unfold pad. now rewrite hex_read_append, hex_read_zeros, Hval. }
  destruct (Z.ltb_spec v 0) as [Hneg|Hpos].
  - rewrite (int16_digits true _ Hd Hn), Hr. f_equal. lia.
  - rewrite (int16_digits false _ Hd Hn), Hr. f_equal. lia.
Qed.

End EscapeRoundTrip.

(** X8.  An escape reads back: for every integer [cp] the escape is [\U]
    (above 0xFFFF) or [\u] followed by a text that [int(text, 16)] reads as
    [cp], also when [cp] needs more digits than the minimum width or is
    negative. *)
Theorem escape_reads_back (cp : Z) :
  exists digits,
    CaseTransform.to_char_escape cp
    = (if cp >? 65535 then "\U" else "\u") ++ digits
    /\ int16 digits = Some cp.
Proof.
  unfold CaseTransform.to_char_escape. destruct (cp >? 65535).
  - exists (format_0X 8 cp). split; [reflexivity | apply format_0X_int16].
  - exists (format_0X 4 cp). split; [reflexivity | apply format_0X_int16].
Qed.

(** X9.  Different integers never get the same literal: [to_char_escape]
    and [to_char_literal] are injective, so distinct code points stay
    distinct keys in the generated tables. *)
Theorem escape_injective (a b : Z) :
  (CaseTransform.to_char_escape a = CaseTransform.to_char_escape b -> a = b)
  /\ (CaseTransform.to_char_literal a = CaseTransform.to_char_literal b ->
      a = b).
Proof.
  assert (I : CaseTransform.to_char_escape a = CaseTransform.to_char_escape b
              -> a = b).
  { unfold CaseTransform.to_char_escape.
    destruct (a >? 65535); destruct (b >? 65535); intros H;
      try discriminate H; injection H as H;
      apply (f_equal int16) in H; rewrite !format_0X_int16 in H;
      congruence. }
  split; [exact I|].
  unfold CaseTransform.to_char_literal. intros H. apply I.
  injection H as H. revert H.
  generalize (CaseTransform.to_char_escape a) as s,
             (CaseTransform.to_char_escape b) as t.
  induction s as [|c s IH]; intros [|d t] H; try reflexivity.
  - destruct t; discriminate H.
  - destruct s; discriminate H.
  - simpl in H. injection H as -> H. f_equal. now apply IH.
Qed.

Lemma escape_injective_witness :
  CaseTransform.to_char_escape 65 = CaseTransform.to_char_escape 65
  /\ 65 = 65.
Proof.
  split; [reflexivity|].
  exact (proj1 (escape_injective 65 65) eq_refl).
Defined.

(** ** Entity tables *)

Section EntityTables.

Import HtmlEntities.

Lemma count_nl_append (s t : string) :
  count_nl (s ++ t) = (count_nl s + count_nl t)%nat.
Proof. induction s as [|c s IH]; simpl; [reflexivity | rewrite IH; lia]. Qed.

Lemma count_nl_one_line (s : string) : one_line s = true -> count_nl s = 0%nat.
Proof.
  induction s as [|c s IH]; simpl; [reflexivity|].
  intros H. apply andb_true_iff in H as [Hc Hs].
  destruct (Ascii.eqb c newline); [discriminate Hc | now apply IH].
Qed.

Lemma count_nl_join (lines : list string) :
  Forall (fun l => one_line l = true) lines ->
  count_nl (join nl lines) = (List.length lines - 1)%nat.
Proof.
  induction 1 as [|l rest Hl Hrest IH]; [reflexivity|].
  destruct rest as [|l' rest]; [simpl; now apply count_nl_one_line|].
  change (join nl (l :: l' :: rest)) with (l ++ nl ++ join nl (l' :: rest)).
  rewrite !count_nl_append, IH, (count_nl_one_line _ Hl). simpl. lia.
Qed.

End EntityTables.

(** X10.  The bare name of an entity does not depend on what its first
    and last characters are: the trim is by position and never checks for
    [&] or [;], so two names with the same inner part give the same line
    for the same definition. *)
Theorem entity_trim_ignores_delimiters (a b a' b' : ascii) (inner : string)
  (e : HtmlEntities.entry) :
  HtmlEntities.entry_line (String a (inner ++ String b EmptyString)) e
  = HtmlEntities.entry_line (String a' (inner ++ String b' EmptyString)) e
  /\ slice 1 (-1) (String a (inner ++ String b EmptyString)) = inner.
Proof.
  unfold HtmlEntities.entry_line. rewrite !slice_inner. now split.
Qed.

(** X11.  The entity table has one row for each item: when no name holds
    a line feed, the text written on stdout has 4 line feeds for the fixed
    lines and one for every item of the document, or one for the empty
    line printed for an empty document. *)
Theorem entity_table_rows (data : HtmlEntities.document) :
  Forall (fun item => one_line (fst item) = true) data ->
  count_nl (stdout (HtmlEntities.main data))
  = (4 + Nat.max 1 (List.length data))%nat.
Proof.
  intros H. rewrite main_framed. unfold framed. cbn [stdout].
  rewrite !count_nl_append. rewrite count_nl_join.
  - rewrite (Permutation_length (sort_perm _)).
    unfold entry_lines. rewrite length_map.
    change (count_nl nl) with 1%nat.
    change (count_nl "// NOLINTBEGIN") with 0%nat.
    change (count_nl "// clang-format off") with 0%nat.
    change (count_nl "// clang-format on") with 0%nat.
    change (count_nl "// NOLINTEND") with 0%nat.
    change (count_nl EmptyString) with 0%nat.
    lia.
  - eapply Permutation_Forall; [symmetry; apply sort_perm|].
    unfold entry_lines. rewrite Forall_map.
    eapply Forall_impl; [|exact H].
    intros [name e] Hn. apply one_line_entry. exact Hn.
Qed.

Lemma entity_table_rows_witness :
  count_nl (stdout (HtmlEntities.main amp_lt)) = 6%nat.
Proof.
  assert (H : Forall (fun item => one_line (fst item) = true) amp_lt)
    by (repeat constructor).
  exact (entity_table_rows amp_lt H).
Defined.

(** ** The byte array of file-to-array.py *)

Section ByteArray.

Import FileToArray.

Lemma append_inv_head (p s t : string) : p ++ s = p ++ t -> s = t.
Proof.
  induction p as [|c p IH]; simpl; intros H; [exact H|].
  injection H as H. now apply IH.
Qed.

Lemma append_inv_tail (s t u : string) : s ++ u = t ++ u -> s = t.
Proof.
  intros H.
  assert (L : String.length s = String.length t).
  { apply (f_equal String.length) in H. rewrite !length_append in H. lia. }
  revert t H L. induction s as [|c s IH]; intros [|d t] H L;
    simpl in L; try discriminate L; [reflexivity|].
  simpl in H. injection H as -> H. f_equal. apply IH; [exact H | lia].
Qed.

(** The entry of a byte: six characters, [0x], two lowercase hexadecimal
    digits that denote the byte, a comma and a space. *)
Lemma byte_entry_spec (b : Byte.byte) :
  exists h1 h2,
    byte_entry b
    = String "0" (String "x" (String h1 (String h2 ", ")))
    /\ lower_hex h1 = true /\ lower_hex h2 = true
    /\ hex_read 0 (String h1 (String h2 EmptyString)) = Some (Byte.to_N b).
Proof.
  destruct b; do 2 eexists; (split; [reflexivity|]); repeat split.
Qed.

Lemma byte_entry_injective (b1 b2 : Byte.byte) (s1 s2 : string) :
  byte_entry b1 ++ s1 = byte_entry b2 ++ s2 -> b1 = b2 /\ s1 = s2.
Proof.
  destruct (byte_entry_spec b1) as (h1 & h2 & -> & _ & _ & R1).
  destruct (byte_entry_spec b2) as (k1 & k2 & -> & _ & _ & R2).
  cbn [append]. intros H. injection H as -> -> H.
  split; [|exact H].
  rewrite R1 in R2. injection R2 as E.
  pose proof (Byte.of_to_N b1) as O1. pose proof (Byte.of_to_N b2) as O2.
  rewrite E in O1. congruence.
Qed.

Lemma write_bytes_cons (i : nat) (b : Byte.byte) (rest : list Byte.byte) :
  write_bytes i (b :: rest)
  = byte_entry b
      ++ (if ((i + 1) mod 16 =? 0)%nat then nl ++ "    " else EmptyString)
      ++ write_bytes (S i) rest.
Proof. reflexivity. Qed.

Lemma write_bytes_app (l1 : list Byte.byte) : forall i l2,
  write_bytes i (l1 ++ l2)
  = write_bytes i l1 ++ write_bytes (i + List.length l1) l2.
Proof.
  induction l1 as [|b l1 IH]; intros i l2.
  - simpl. now rewrite Nat.add_0_r.
  - cbn [app List.length]. rewrite !write_bytes_cons, IH.
    replace (i + S (List.length l1))%nat with (S i + List.length l1)%nat
      by lia.
    now rewrite !append_assoc.
Qed.

Lemma succ_div_mod (i : nat) :
  (if ((i + 1) mod 16 =? 0)%nat
   then (i + 1) / 16 = S (i / 16) /\ i mod 16 = 15
   else (i + 1) / 16 = i / 16 /\ (i + 1) mod 16 = S (i mod 16))%nat.
Proof.
  pose proof (Nat.div_mod_eq i 16) as D1.
  pose proof (Nat.div_mod_eq (i + 1) 16) as D2.
  pose proof (Nat.mod_upper_bound i 16 ltac:(lia)) as B1.
  pose proof (Nat.mod_upper_bound (i + 1) 16 ltac:(lia)) as B2.
  destruct (Nat.eqb_spec ((i + 1) mod 16) 0) as [e|e];
    generalize dependent ((i + 1) / 16)%nat;
    generalize dependent ((i + 1) mod 16)%nat;
    generalize dependent (i / 16)%nat;
    generalize dependent (i mod 16)%nat; intros; lia.
Qed.

Lemma write_bytes_length (data : list Byte.byte) : forall i,
  (String.length (write_bytes i data) + 5 * (i / 16)
   = 6 * List.length data + 5 * ((i + List.length data) / 16))%nat.
Proof.
  induction data as [|b data IH]; intros i.
  - cbn [write_bytes String.length List.length].
    replace (i + 0)%nat with i by lia. lia.
  - rewrite write_bytes_cons, !length_append.
    destruct (byte_entry_spec b) as (h1 & h2 & -> & _).
    specialize (IH (S i)). cbn [List.length].
    replace (i + S (List.length data))%nat with (S i + List.length data)%nat
      by lia.
    pose proof (succ_div_mod i) as M.
    replace (S i) with (i + 1)%nat in IH |- * by lia.
    change (String.length (String "0" (String "x" (String h1 (String h2 ", ")))))
      with 6%nat.
    destruct ((i + 1) mod 16 =? 0)%nat; destruct M as [M _];
      rewrite M in IH.
    + change (String.length (nl ++ "    ")) with 5%nat.
      generalize dependent ((i + 1 + List.length data) / 16)%nat.
      generalize dependent (i / 16)%nat. intros. lia.
    + change (String.length EmptyString) with 0%nat.
      generalize dependent ((i + 1 + List.length data) / 16)%nat.
      generalize dependent (i / 16)%nat. intros. lia.
Qed.

Lemma write_bytes_row_part (data : list Byte.byte) : forall i,
  (i mod 16 + List.length data < 16)%nat ->
  write_bytes i data = String.concat EmptyString (map byte_entry data).
Proof.
  induction data as [|b data IH]; intros i H; [reflexivity|].
  rewrite write_bytes_cons. cbn [List.length] in H.
  pose proof (succ_div_mod i) as M.
  destruct ((i + 1) mod 16 =? 0)%nat; [lia|]. destruct M as [_ M].
  rewrite IH by (replace (S i) with (i + 1)%nat by lia; lia).
  cbn [map]. destruct data; simpl; [now rewrite append_empty_r|].
  reflexivity.
Qed.

Lemma concat_snoc (l : list string) (x : string) :
  String.concat EmptyString (l ++ [x]) = String.concat EmptyString l ++ x.
Proof.
  induction l as [|a l IH]; [reflexivity|].
  destruct l as [|c l]; [reflexivity|].
  change (String.concat EmptyString ((a :: c :: l) ++ [x]))
    with (a ++ String.concat EmptyString ((c :: l) ++ [x])).
  change (String.concat EmptyString (a :: c :: l))
    with (a ++ String.concat EmptyString (c :: l)).
  now rewrite IH, append_assoc.
Qed.

Lemma write_bytes_injective (d1 : list Byte.byte) : forall i d2,
  write_bytes i d1 = write_bytes i d2 -> d1 = d2.
Proof.
  induction d1 as [|b1 d1 IH]; intros i [|b2 d2] H.
  - reflexivity.
  - rewrite write_bytes_cons in H.
    destruct (byte_entry_spec b2) as (h1 & h2 & E & _). rewrite E in H.
    discriminate H.
  - rewrite write_bytes_cons in H.
    destruct (byte_entry_spec b1) as (h1 & h2 & E & _). rewrite E in H.
    discriminate H.
  - rewrite !write_bytes_cons in H.
    apply byte_entry_injective in H as [-> H].
    apply append_inv_head in H. f_equal. exact (IH _ _ H).
Qed.

End ByteArray.

(** X12.  Every byte of the input becomes one entry of six characters:
    [0x], exactly two lowercase hexadecimal digits that denote the byte, a
    comma and a space. *)
Theorem array_entry_of_byte (i : nat) (b : Byte.byte)
  (rest : list Byte.byte) :
  exists h1 h2 tail,
    FileToArray.write_bytes i (b :: rest)
    = String "0" (String "x" (String h1 (String h2 (", " ++ tail))))
    /\ lower_hex h1 = true /\ lower_hex h2 = true
    /\ hex_read 0 (String h1 (String h2 EmptyString)) = Some (Byte.to_N b)
    /\ tail = (if ((i + 1) mod 16 =? 0)%nat then nl ++ "    "
               else EmptyString)
              ++ FileToArray.write_bytes (S i) rest.
Proof.
  destruct (byte_entry_spec b) as (h1 & h2 & E & L1 & L2 & R).
  exists h1, h2. eexists.
  rewrite write_bytes_cons, E. cbn [append].
  repeat split; try assumption.
Qed.

(** X13.  The array of [n] bytes takes [6 n + 5 (n / 16)] characters: six
    for each byte and a line feed with four spaces after every sixteenth
    byte; for an empty input nothing is written between the braces. *)
Theorem array_text_length (data : list Byte.byte) :
  String.length (FileToArray.write_bytes 0 data)
  = (6 * List.length data + 5 * (List.length data / 16))%nat.
Proof.
  pose proof (write_bytes_length data 0) as H.
  change (0 / 16)%nat with 0%nat in H.
  change (0 + List.length data)%nat with (List.length data) in H.
  generalize dependent (List.length data / 16)%nat. intros. lia.
Qed.

(** X14.  The array is laid out in rows of sixteen entries: from an index
    that is a multiple of 16, sixteen bytes give their sixteen entries and
    then the line break with its indentation, and the rest follows from
    the next multiple of 16; fewer than sixteen bytes give only their
    entries, with no line break. *)
Theorem array_rows_of_sixteen (k : nat) (row rest : list Byte.byte) :
  (List.length row = 16%nat ->
   FileToArray.write_bytes (16 * k) (row ++ rest)
   = String.concat EmptyString (map byte_entry row)
       ++ (nl ++ "    ")
       ++ FileToArray.write_bytes (16 * (k + 1)) rest)
  /\ ((List.length row < 16)%nat ->
      FileToArray.write_bytes (16 * k) row
      = String.concat EmptyString (map byte_entry row)).
Proof.
  assert (M : ((16 * k) mod 16 = 0)%nat).
  { rewrite Nat.mul_comm. apply Nat.Div0.mod_mul. }
  split.
  - intros H.
    destruct (exists_last (l := row)) as (front & b & ->);
      [intros ->; discriminate H|].
    rewrite length_app in H. cbn [List.length] in H.
    rewrite <- !app_assoc. cbn [app].
    rewrite write_bytes_app, write_bytes_cons.
    rewrite (write_bytes_row_part front) by lia.
    assert (E : ((16 * k + List.length front + 1) mod 16 = 0)%nat).
    { replace (16 * k + List.length front + 1)%nat with ((k + 1) * 16)%nat
        by lia.
      apply Nat.Div0.mod_mul. }
    rewrite E. cbn [Nat.eqb].
    replace (S (16 * k + List.length front)) with (16 * (k + 1))%nat by lia.
    rewrite map_app. cbn [map]. rewrite concat_snoc.
    now rewrite !append_assoc.
  - intros H. apply write_bytes_row_part. lia.
Qed.

Lemma array_rows_of_sixteen_witness :
  FileToArray.write_bytes (16 * 0) [Byte.x00; Byte.xff]
  = String.concat EmptyString (map byte_entry [Byte.x00; Byte.xff]).
Proof.
  assert (H : (List.length [Byte.x00; Byte.xff] < 16)%nat) by (simpl; lia).
  exact (proj2 (array_rows_of_sixteen 0 [Byte.x00; Byte.xff] []) H).
Defined.

(** X15.  The generated file determines the bytes it was made from: for
    one variable name, two inputs that give the same text are the same
    sequence of bytes. *)
Theorem array_text_injective (d1 d2 : list Byte.byte) (var_name : string) :
  FileToArray.emit_cpp_array d1 var_name
  = FileToArray.emit_cpp_array d2 var_name ->
  d1 = d2.
Proof.
  unfold FileToArray.emit_cpp_array. intros H.
  repeat (apply append_inv_head in H).
  apply append_inv_tail in H.
  exact (write_bytes_injective _ _ _ H).
Qed.

Lemma array_text_injective_witness :
  FileToArray.emit_cpp_array [Byte.x00] "asset"
  = FileToArray.emit_cpp_array [Byte.x00] "asset"
  /\ [Byte.x00] = [Byte.x00].
Proof.
  split; [reflexivity|].
  exact (array_text_injective [Byte.x00] [Byte.x00] "asset" eq_refl).
Defined.

(** In the special transformations the loop goes past the record of
    LATIN SMALL LETTER SHARP S and stops at the conditional record. *)
Example lines_passed_before_break :
  lines_passed "special_upper" 5 [record_00DF; record_03A3; record_00DF]
  = 1%nat.
Proof. reflexivity. Qed.
